(** * FastApiScraper: a shallow embedding of [scraper_api.py]

    The development follows the source file top-down:
    - [Text]: the string operations the scraper uses ([str.strip], [in]);
    - [Soup]: the part of BeautifulSoup's tree API that [parse_page] calls
      ([find], [find_all], [get_text], attribute access);
    - [Scraper]: [scrape_page] under the [tenacity] retry decorator,
      [parse_page] and [scrape];
    - [Controller]: the storage and notification strategies and
      [ScrapingController.scrape_and_store] over the redis cache.

    Python exceptions are values of [exn]; a computation that may raise
    returns [result A = exn + A].  Network traffic, console output and
    sleeping are recorded in a trace of [event]s. *)

From stdpp Require Import base option list strings gmap pretty.
From Stdlib Require Import ZArith Lia Ascii.

Set Warnings "-register-all".
Open Scope Z_scope.

(** ** Exceptions *)

(** The subclasses of [requests.RequestException] that [session.get] and
    [raise_for_status] raise. *)
Inductive request_error :=
| ConnectionError
| Timeout
| HTTPError (status : Z).

Inductive exn :=
| AttributeError                         (* attribute access on [None] *)
| RequestException (e : request_error)
| OtherError (name : string)             (* any exception outside requests' hierarchy *)
| RetryError.                            (* tenacity: attempts exhausted *)

Definition result (A : Type) : Type := exn + A.

Abbreviation Ok := (@inr exn _).
Abbreviation Raise := (@inl exn _).

#[global] Instance result_ret : MRet result := λ A a, inr a.
#[global] Instance result_bind : MBind result := λ A B f m,
  match m with
  | inl e => inl e
  | inr a => f a
  end.
#[global] Instance result_fmap : FMap result := λ A B f m,
  match m with
  | inl e => inl e
  | inr a => inr (f a)
  end.

(** ** Effects *)

(** A scraped product: the dict built by [parse_page].  [path_to_image]
    is [None], or the value stored under the image's attribute. *)
Inductive attr_value :=
| AttrStr (s : string)
| AttrList (l : list string).

Record product_item := {
  product_title : string;
  product_price : string;
  path_to_image : option attr_value
}.

Inductive event :=
| HttpGet (url : string) (proxies : option (string * string)) (timeout : Z)
| Print (line : string)
| Sleep (seconds : Z)
| RedisGet (key : string)
| RedisSet (key value : string)
| StorageLoad
| StorageSave (data : list product_item)
| NotificationSend (message : string).

(** A computation with observable effects: its trace, and what it
    returns or raises. *)
Definition io (A : Type) : Type := list event * result A.

#[global] Instance io_ret : MRet io := λ A a, ([], inr a).
#[global] Instance io_bind : MBind io := λ A B f m,
  match m with
  | (tr, inl e) => (tr, inl e)
  | (tr, inr a) => let '(tr', r) := f a in (tr ++ tr', r)
  end.

Definition emit (e : event) : io unit := ([e], inr tt).
Definition raise_io {A} (e : exn) : io A := ([], inl e).
Definition lift {A} (r : result A) : io A := ([], r).

(** [try: body except <handled>: handler] *)
Definition try_except {A} (body : io A) (handler : exn → option (io A)) : io A :=
  match body with
  | (tr, inr a) => (tr, inr a)
  | (tr, inl e) =>
      match handler e with
      | Some h => let '(tr', r) := h in (tr ++ tr', r)
      | None => (tr, inl e)
      end
  end.

(** [for x in l: acc = body x acc], stopping at the first exception. *)
Fixpoint for_each {M} `{!MBind M, !MRet M} {A B}
    (body : A → B → M B) (l : list A) (acc : B) : M B :=
  match l with
  | [] => mret acc
  | x :: l' => acc' ← body x acc; for_each body l' acc'
  end.

(** ** Strings *)

Module Text.

(** A string is read as one character per code point, for the code
    points below 256 (Latin-1 text); text with other characters is
    outside the model. *)

(** [str.isspace] on the code points below 256. *)
Definition isspace (a : Ascii.ascii) : bool :=
  let n := Ascii.N_of_ascii a in
  ((9 <=? n) && (n <=? 13) || (28 <=? n) && (n <=? 32)
   || (n =? 133) || (n =? 160))%N.

Fixpoint lstrip (s : string) : string :=
  match s with
  | EmptyString => EmptyString
  | String a s' => if isspace a then lstrip s' else s
  end.

Definition rstrip (s : string) : string :=
  String.rev (lstrip (String.rev s)).

(** [s.strip()] *)
Definition strip (s : string) : string := rstrip (lstrip s).

(** [needle in hay] *)
Fixpoint contains (needle hay : string) : bool :=
  String.prefix needle hay ||
  match hay with
  | EmptyString => false
  | String _ hay' => contains needle hay'
  end.

(** [sep.join(l)] *)
Fixpoint join (sep : string) (l : list string) : string :=
  match l with
  | [] => ""
  | [x] => x
  | x :: l' => x +:+ sep +:+ join sep l'
  end.

(** Truthiness of a [str]. *)
Definition truthy (s : string) : bool :=
  match s with EmptyString => false | _ => true end.

End Text.

(** ** The BeautifulSoup tree *)

Module Soup.

(** An attribute value ([attr_value]) is a string, or a list of
    strings for the multi-valued attributes ([class]). *)
Inductive node :=
| Tag (name : string) (attrs : gmap string attr_value) (contents : list node)
| NavigableString (s : string).

(** What an attribute filter is compared with: a string, or a function
    of the (possibly missing) value. *)
Inductive matcher :=
| MatchStr (s : string)
| MatchFn (f : option string → bool).

Definition matches_str (markup : option string) (m : matcher) : bool :=
  match m with
  | MatchFn f => f markup
  | MatchStr s =>
      match markup with
      | None => negb (Text.truthy s)
      | Some v => bool_decide (v = s)
      end
  end.

(** [SoupStrainer._matches]: a multi-valued attribute matches when one
    of its values does, or when the values joined by a space do. *)
Definition matches (markup : option attr_value) (m : matcher) : bool :=
  match markup with
  | Some (AttrList l) =>
      existsb (λ item, matches_str (Some item) m) l
      || matches_str (Some (Text.join " " l)) m
  | Some (AttrStr s) => matches_str (Some s) m
  | None => matches_str None m
  end.

Definition tag_name (n : node) : option string :=
  match n with Tag name _ _ => Some name | NavigableString _ => None end.

Definition tag_attrs (n : node) : gmap string attr_value :=
  match n with Tag _ attrs _ => attrs | NavigableString _ => ∅ end.

(** [tag.descendants]: every node below [n], in document order. *)
Fixpoint descendants (n : node) : list node :=
  match n with
  | Tag _ _ contents => flat_map (λ c, c :: descendants c) contents
  | NavigableString _ => []
  end.

(** [SoupStrainer.search_tag]: the name is equal and every attribute
    filter matches. *)
Definition search_tag (name : string) (filters : list (string * matcher))
    (n : node) : bool :=
  match n with
  | Tag name' attrs _ =>
      bool_decide (name' = name)
      && forallb (λ '(attr, m), matches (attrs !! attr) m) filters
  | NavigableString _ => false
  end.

Definition find_all (name : string) (filters : list (string * matcher))
    (n : node) : list node :=
  List.filter (search_tag name filters) (descendants n).

(** [tag.find(name, **filters)]: the first match, or [None]. *)
Definition find (name : string) (filters : list (string * matcher))
    (n : node) : option node :=
  head (find_all name filters n).

(** [tag.get_text(strip=True)]: the stripped, non-empty strings below
    the tag, concatenated. *)
Definition get_text_strip (n : node) : string :=
  Text.join ""
    (List.filter (λ s, Text.truthy s)
       (omap (λ d, match d with
                   | NavigableString s => Some (Text.strip s)
                   | Tag _ _ _ => None
                   end) (descendants n))).

(** [tag.has_attr(key)] and [tag[key]] *)
Definition has_attr (n : node) (key : string) : bool :=
  bool_decide (is_Some (tag_attrs n !! key)).

(** Calling a method on the result of a [find]: on [None] it is an
    [AttributeError]. *)
Definition deref {A} (o : option A) : result A :=
  match o with
  | Some x => Ok x
  | None => Raise AttributeError
  end.

(** [o.find(name, **filters)] *)
Definition find_on (o : option node) (name : string)
    (filters : list (string * matcher)) : result (option node) :=
  n ← deref o; Ok (find name filters n).

(** [o.get_text(strip=True)] *)
Definition get_text_on (o : option node) : result string :=
  n ← deref o; Ok (get_text_strip n).

(** The keyword filter [class_=s]. *)
Definition class_ (s : string) : list (string * matcher) :=
  [("class", MatchStr s)].

End Soup.

(** ** The scraper *)

Module Scraper.
Import Soup.

(** What the remote site does at the [attempt]-th request for a page:
    answer with a status code and a body, or make [session.get] raise. *)
Inductive outcome :=
| Response (status_code : Z) (text : string)
| Fails (e : exn).

Definition network : Type := Z → nat → outcome.

Record t := {
  base_url : string;
  page_limit : Z;
  proxies : option (string * string)
}.

(** [Scraper.__init__] *)
Definition init (page_limit : Z) (proxy : option string) : t :=
  {| base_url := "https://dentalstall.com/shop/page/";
     page_limit := page_limit;
     proxies := match proxy with
                | Some p => if Text.truthy p then Some (p, p) else None
                | None => None
                end |}.

(** [str(e)] for the exceptions of the requests hierarchy.  The wording
    of the message is the library's and is not modelled: the text here
    only names the exception. *)
Definition str_request_error (e : request_error) : string :=
  match e with
  | ConnectionError => "ConnectionError"
  | Timeout => "Timeout"
  | HTTPError status => pretty status +:+ " Error"
  end.

(** [session.get(url, proxies=..., timeout=...)] *)
Definition session_get (net : network) (page_number : Z) (attempt : nat)
    (url : string) (proxies : option (string * string)) (timeout : Z)
    : io outcome :=
  emit (HttpGet url proxies timeout);;
  match net page_number attempt with
  | Fails e => raise_io e
  | r => mret r
  end.

(** [response.raise_for_status()] *)
Definition raise_for_status (response : outcome) : io unit :=
  match response with
  | Response status_code _ =>
      if (400 <=? status_code) && (status_code <? 600)
      then raise_io (RequestException (HTTPError status_code))
      else mret tt
  | Fails e => raise_io e
  end.

Definition response_text (response : outcome) : string :=
  match response with
  | Response _ text => text
  | Fails _ => ""
  end.

(** The body of [scrape_page], one call. *)
Definition scrape_page_body (self : t) (net : network) (page_number : Z)
    (attempt : nat) : io (option string) :=
  let url := base_url self +:+ pretty page_number +:+ "/" in
  try_except
    (response ← session_get net page_number attempt url (proxies self) 10;
     raise_for_status response;;
     mret (Some (response_text response)))
    (λ e, match e with
          | RequestException r =>
              Some (emit (Print ("Error fetching " +:+ url +:+ ": "
                                 +:+ str_request_error r));;
                    mret None)
          | _ => None
          end).

(** [tenacity.retry]: call again while the call raises; give up with
    [RetryError] once [remaining] further attempts are used up, and
    sleep [wait_fixed] between two attempts. *)
Fixpoint retry_loop {A} (wait_fixed : Z) (fn : nat → io A)
    (attempt_number remaining : nat) : io A :=
  match fn attempt_number with
  | (tr, inr a) => (tr, inr a)
  | (tr, inl e) =>
      match remaining with
      | O => (tr, inl RetryError)
      | S remaining' =>
          let '(tr', r) :=
            retry_loop wait_fixed fn (S attempt_number) remaining' in
          (tr ++ Sleep wait_fixed :: tr', r)
      end
  end.

Definition retry {A} (stop_after_attempt : nat) (wait_fixed : Z)
    (fn : nat → io A) : io A :=
  retry_loop wait_fixed fn 1 (stop_after_attempt - 1).

(** [@retry(stop=stop_after_attempt(3), wait=wait_fixed(5))
     def scrape_page(self, page_number)] *)
Definition scrape_page (self : t) (net : network) (page_number : Z)
    : io (option string) :=
  retry 3 5 (scrape_page_body self net page_number).

(** The [li] filter: [class_=lambda x: x and 'product' in x]. *)
Definition is_product_class (x : option string) : bool :=
  match x with
  | Some x => Text.truthy x && Text.contains "product" x
  | None => false
  end.

(** The body of the inner loop of [parse_page]. *)
Definition parse_product (product : node) (products : list product_item)
    : result (list product_item) :=
  let product_item :=
    {| product_title := ""; product_price := "";
       path_to_image := Some (AttrStr "") |} in
  let product_inner := find "div" (class_ "product-inner clearfix") product in
  match product_inner with
  | Some product_inner =>
      let product_inner_name_price_div :=
        find "div" (class_ "mf-product-details") product_inner in
      product_item ←
        match product_inner_name_price_div with
        | Some product_inner_name_price_div =>
            h2 ← find_on (find "div" (class_ "mf-product-content")
                            product_inner_name_price_div) "h2" [];
            a ← find_on h2 "a" [];
            product_inner_name ← get_text_on a;
            let product_item :=
              {| product_title := product_inner_name;
                 product_price := product_price product_item;
                 path_to_image := path_to_image product_item |} in
            let price_box :=
              find "div" (class_ "mf-product-price-box")
                product_inner_name_price_div in
            ins_tag ← find_on price_box "ins" [];
            price ←
              match ins_tag with
              | Some ins_tag => Ok (get_text_strip ins_tag)
              | None =>
                  bdi_tag ← find_on price_box "span"
                              (class_ "woocommerce-Price-amount amount");
                  Ok (match bdi_tag with
                      | Some bdi_tag => get_text_strip bdi_tag
                      | None => "N/A"
                      end)
              end;
            Ok {| product_title := product_title product_item;
                  product_price := price;
                  path_to_image := path_to_image product_item |}
        | None => Ok product_item
        end;
      a ← find_on (find "div" (class_ "mf-product-thumbnail") product_inner)
            "a" [];
      img_tag ← find_on a "img" [];
      let img_src :=
        match img_tag with
        | Some img_tag =>
            if has_attr img_tag "data-lazy-src"
            then tag_attrs img_tag !! "data-lazy-src"
            else None
        | None => None
        end in
      Ok (products ++ [ {| product_title := product_title product_item;
                           product_price := product_price product_item;
                           path_to_image := img_src |} ])
  | None => Ok products
  end.

(** [parse_page] after [soup = BeautifulSoup(html, "html.parser")]. *)
Definition parse_soup (soup : node) : result (list product_item) :=
  let products := [] in
  let shop_content :=
    find "div" [("id", MatchStr "mf-shop-content")] soup in
  match shop_content with
  | Some shop_content =>
      for_each
        (λ ul products,
           for_each parse_product
             (find_all "li" [("class", MatchFn is_product_class)] ul)
             products)
        (find_all "ul" [] shop_content) products
  | None => Ok products
  end.

Section WithParser.

(** [BeautifulSoup(html, "html.parser")]: the markup parser is the
    library's; the scraper only walks the tree it returns. *)
Variable BeautifulSoup : string → node.

Definition parse_page (html : string) : result (list product_item) :=
  parse_soup (BeautifulSoup html).

(** One turn of the loop of [scrape]. *)
Definition scrape_step (self : t) (net : network) (page : Z)
    (all_products : list product_item) : io (list product_item) :=
  html ← scrape_page self net page;
  match html with
  | Some html =>
      if Text.truthy html
      then products ← lift (parse_page html);
           mret (all_products ++ products)
      else mret all_products
  | None => mret all_products
  end.

(** [range(lo, hi)] *)
Definition range (lo hi : Z) : list Z := seqZ lo (hi - lo).

Definition scrape (self : t) (net : network) : io (list product_item) :=
  for_each (scrape_step self net) (range 1 (page_limit self + 1)) [].

End WithParser.

End Scraper.

(** ** Storage and notification strategies *)

(** [StorageStrategy]: a store with state [S].  Only the two concrete
    strategies are ever instantiated, so the methods are total. *)
Class StorageStrategy (S : Type) := {
  save : list product_item → S → S;
  load : S → list product_item
}.

(** [JSONStorage]: the file [scraped_data.json], missing or holding the
    dataset last dumped (the JSON text itself is not modelled). *)
Record JSONStorage := { FILE : option (list product_item) }.

#[global] Instance JSONStorage_strategy : StorageStrategy JSONStorage := {|
  save data _ := {| FILE := Some data |};
  load self := match FILE self with Some data => data | None => [] end
|}.

Record InMemoryStorage := { data : list product_item }.

(** [InMemoryStorage.__init__] *)
Definition InMemoryStorage_init : InMemoryStorage := {| data := [] |}.

#[global] Instance InMemoryStorage_strategy : StorageStrategy InMemoryStorage := {|
  save d _ := {| data := d |};
  load self := data self
|}.

Class NotificationStrategy (N : Type) := {
  send : string → N → N
}.

(** [ConsoleNotification]: the lines printed so far. *)
Record ConsoleNotification := { stdout : list string }.

#[global] Instance ConsoleNotification_strategy
    : NotificationStrategy ConsoleNotification := {|
  send message self := {| stdout := stdout self ++ [message] |}
|}.

(** ** The scraping controller *)

Module Controller.

Record t (S N : Type) := {
  storage : S;
  notification : N
}.
Arguments storage {S N} _.
Arguments notification {S N} _.

(** The state of the diff loop: the redis database, [updated_count]
    and the commands sent so far. *)
Record diff := {
  redis : gmap string string;
  updated_count : Z;
  commands : list event
}.

(** The body of [for product in scraped_data]. *)
Definition update_step (st : diff) (product : product_item) : diff :=
  let cache_key := product_title product +:+ "_price" in
  let cached_price := redis st !! cache_key in
  let commands := commands st ++ [RedisGet cache_key] in
  if match cached_price with
     | None => true
     | Some cached_price =>
         negb (bool_decide (cached_price = product_price product))
     end
  then {| redis := <[cache_key := product_price product]> (redis st);
          updated_count := updated_count st + 1;
          commands := commands
                      ++ [RedisSet cache_key (product_price product)] |}
  else {| redis := redis st;
          updated_count := updated_count st;
          commands := commands |}.

Definition detect_updates (scraped_data : list product_item)
    (redis_client : gmap string string) : diff :=
  fold_left update_step scraped_data
    {| redis := redis_client; updated_count := 0; commands := [] |}.

(** What one call leaves behind: the trace, the redis database, the
    controller, and the response or the exception. *)
Record run (S N : Type) := {
  trace : list event;
  redis_client : gmap string string;
  self : t S N;
  response : result string
}.
Arguments trace {S N} _.
Arguments redis_client {S N} _.
Arguments self {S N} _.
Arguments response {S N} _.

Definition summary (scraped_data : list product_item) (updated_count : Z)
    : string :=
  "Scraped " +:+ pretty (length scraped_data) +:+ " products. Updated "
  +:+ pretty updated_count +:+ " products.".

Section WithCollaborators.
Context {S N : Type} `{!StorageStrategy S, !NotificationStrategy N}.
Variable BeautifulSoup : string → Soup.node.
Variable net : Scraper.network.

(** [ScrapingController.scrape_and_store]; the response is the
    ["message"] of the returned dict. *)
Definition scrape_and_store (self : t S N)
    (redis_client : gmap string string)
    (page_limit : Z) (proxy : option string) : run S N :=
  let scraper := Scraper.init page_limit proxy in
  match Scraper.scrape BeautifulSoup scraper net with
  | (tr, inl e) =>
      {| trace := tr; redis_client := redis_client; self := self;
         response := Raise e |}
  | (tr, inr scraped_data) =>
      let existing_data := load (storage self) in
      let d := detect_updates scraped_data redis_client in
      let saved := bool_decide (0 < updated_count d) in
      let message := summary scraped_data (updated_count d) in
      {| trace := tr ++ [StorageLoad] ++ commands d
                  ++ (if saved then [StorageSave scraped_data] else [])
                  ++ [NotificationSend message];
         redis_client := redis d;
         self := {| storage := if saved
                               then save scraped_data (storage self)
                               else storage self;
                    notification := send message (notification self) |};
         response := Ok message |}
  end.

End WithCollaborators.

(** [start_scraping], past the token check: a fresh [JSONStorage] and
    [ConsoleNotification] around the file and console given. *)
Definition API_TOKEN : string := "secure_token_123".

Definition start_scraping (BeautifulSoup : string → Soup.node)
    (net : Scraper.network) (files : JSONStorage)
    (console : ConsoleNotification) (redis_client : gmap string string)
    (page_limit : Z) (proxy : option string) (token : string)
    : result (run JSONStorage ConsoleNotification) :=
  if bool_decide (token = API_TOKEN)
  then Ok (scrape_and_store BeautifulSoup net
             {| storage := files; notification := console |}
             redis_client page_limit proxy)
  else Raise (OtherError "HTTPException 401 Unauthorized").

End Controller.

(** ** Vocabulary of the properties *)

Module Props.
Import Soup Scraper Controller.

(** [raise_for_status] raises on these status codes. *)
Definition failed_status (status_code : Z) : bool :=
  (400 <=? status_code) && (status_code <? 600).

(** A network-level failure of one request: the exceptions of the
    requests hierarchy, an error status included. *)
Definition network_failure (o : outcome) : bool :=
  match o with
  | Response status_code _ => failed_status status_code
  | Fails (RequestException _) => true
  | Fails _ => false
  end.

(** The markup a successful request delivers. *)
Definition fetched (o : outcome) : option string :=
  match o with
  | Response status_code text =>
      if failed_status status_code then None else Some text
  | Fails _ => None
  end.

Definition page_url (self : Scraper.t) (page_number : Z) : string :=
  base_url self +:+ pretty page_number +:+ "/".

(** What visiting one page does, and the records it contributes. *)
Definition page_trace (self : Scraper.t) (net : network) (page : Z)
    : list event :=
  fst (scrape_page self net page).

Definition page_records (BeautifulSoup : string → node) (self : Scraper.t)
    (net : network) (page : Z) : result (list product_item) :=
  snd (scrape_step BeautifulSoup self net page []).

(** The requests and the sleeps of a trace. *)
Definition requests (tr : list event) : list string :=
  omap (λ e, match e with HttpGet url _ _ => Some url | _ => None end) tr.

Definition sleeps (tr : list event) : list Z :=
  omap (λ e, match e with Sleep s => Some s | _ => None end) tr.

(** The datasets handed to [save] in a trace. *)
Definition saves (tr : list event) : list (list product_item) :=
  omap (λ e, match e with StorageSave d => Some d | _ => None end) tr.

Definition is_scraper_event (e : event) : Prop :=
  match e with
  | HttpGet _ _ _ | Print _ | Sleep _ => True
  | _ => False
  end.

Definition is_redis_command (e : event) : Prop :=
  match e with
  | RedisGet _ | RedisSet _ _ => True
  | _ => False
  end.

(** The nodes the title and the image are read from:
    [details.find(content).find("h2").find("a")] and
    [product_inner.find(thumbnail).find("a")], when every step finds
    its node. *)
Definition title_link (details : node) : option node :=
  content ← find "div" (class_ "mf-product-content") details;
  h2 ← find "h2" [] content;
  find "a" [] h2.

Definition thumbnail_link (product_inner : node) : option node :=
  thumbnail ← find "div" (class_ "mf-product-thumbnail") product_inner;
  find "a" [] thumbnail.

Definition image_of (link : node) : option attr_value :=
  img_tag ← find "img" [] link; tag_attrs img_tag !! "data-lazy-src".

Definition select_price (price_box : node) : string :=
  match find "ins" [] price_box with
  | Some ins_tag => get_text_strip ins_tag
  | None =>
      match find "span" (class_ "woocommerce-Price-amount amount")
              price_box with
      | Some bdi_tag => get_text_strip bdi_tag
      | None => "N/A"
      end
  end.

End Props.

(** ** Sample pages *)

Module Sample.
Import Soup Scraper.

Definition el (name : string) (classes : list string) (contents : list node)
    : node :=
  Tag name {[ "class" := AttrList classes ]} contents.

Definition document (contents : list node) : node :=
  Tag "[document]" ∅ contents.

(** A page whose listing holds the given [li] items. *)
Definition shop (items : list node) : node :=
  document
    [Tag "div" {[ "id" := AttrStr "mf-shop-content" ]} [Tag "ul" ∅ items]].

Definition thumbnail (src : string) : node :=
  el "div" ["mf-product-thumbnail"]
    [Tag "a" ∅ [Tag "img" {[ "data-lazy-src" := AttrStr src ]} []]].

Definition heading (title : string) : node :=
  el "div" ["mf-product-content"]
    [Tag "h2" ∅ [Tag "a" ∅ [NavigableString title]]].

Definition amount (price : string) : node :=
  el "span" ["woocommerce-Price-amount"; "amount"] [NavigableString price].

Definition li_product (inner : list node) : node :=
  el "li" ["product"; "type-product"]
    [el "div" ["product-inner"; "clearfix"] inner].

(** A well-formed item on sale: both prices are in the price box. *)
Definition widget_a_price_box : node :=
  el "div" ["mf-product-price-box"]
    [Tag "del" ∅ [amount "$12.00"]; Tag "ins" ∅ [amount "$9.99"]].

Definition widget_a_details : node :=
  el "div" ["mf-product-details"] [heading "  Widget A "; widget_a_price_box].

Definition widget_a_inner : node :=
  el "div" ["product-inner"; "clearfix"]
    [thumbnail "https://dentalstall.com/a.jpg"; widget_a_details].

Definition widget_a : node :=
  el "li" ["product"; "type-product"] [widget_a_inner].

(** An item with title and price, without the thumbnail region. *)
Definition widget_without_thumbnail : node :=
  li_product
    [el "div" ["mf-product-details"]
       [heading "Widget B";
        el "div" ["mf-product-price-box"] [amount "$5.00"]]].

(** An item whose details region has a price but no heading. *)
Definition widget_without_heading : node :=
  li_product
    [thumbnail "https://dentalstall.com/c.jpg";
     el "div" ["mf-product-details"]
       [el "div" ["mf-product-price-box"] [amount "$7.00"]]].

(** Items with the inner wrapper and no details region. *)
Definition bare_item : node := li_product [].

Definition bare_item_with_thumbnail (src : string) : node :=
  li_product [thumbnail src].

Definition widget_a_record : product_item :=
  {| product_title := "Widget A"; product_price := "$9.99";
     path_to_image := Some (AttrStr "https://dentalstall.com/a.jpg") |}.

(** A parser that knows the listed markups and finds no element in
    any other. *)
Definition parser (pages : list (string * node)) (html : string) : node :=
  match list_find (λ p, fst p = html) pages with
  | Some (_, (_, soup)) => soup
  | None => document []
  end.

(** A site that answers every request for page [p] with the [p]-th
    entry of [answers], and fails to connect past the end. *)
Definition site (answers : list outcome) : network :=
  λ page _, match answers !! Z.to_nat (page - 1) with
            | Some o => o
            | None => Fails (RequestException ConnectionError)
            end.

(** Three pages: the first and the third list the same item, the
    second is down. *)
Definition three_pages : string → node :=
  parser [("<page 1>", shop [widget_a]); ("<page 3>", shop [widget_a])].

Definition second_page_down : network :=
  site [Response 200 "<page 1>"; Response 503 "down"; Response 200 "<page 3>"].


(** Page 1 cannot be reached at the first request and is served from
    the second request on. *)
Definition flaky_site : network :=
  λ page attempt,
    if bool_decide (attempt = 1%nat)
    then Fails (RequestException ConnectionError)
    else Response 200 "<html>".

End Sample.

(** ** Vocabulary of the further properties *)

Module Obs.
Import Soup Scraper Controller Props.

(** An attempt that raises outside the requests hierarchy: the only
    failure the retry decorator gets to see. *)
Definition crashes (o : outcome) : bool :=
  match o with
  | Fails (RequestException _) => false
  | Fails _ => true
  | Response _ _ => false
  end.

(** What the scraper may do on behalf of [self]: request a page of its
    range through its proxies with timeout 10, print, and sleep 5. *)
Definition scraper_event_ok (self : Scraper.t) (e : event) : Prop :=
  match e with
  | HttpGet url px timeout =>
      (∃ p, 1 ≤ p ≤ page_limit self ∧ url = page_url self p)
      ∧ px = proxies self ∧ timeout = 10
  | Print _ => True
  | Sleep seconds => seconds = 5
  | _ => False
  end.

(** The same for the visit of one page. *)
Definition page_event_ok (self : Scraper.t) (p : Z) (e : event) : Prop :=
  match e with
  | HttpGet url px timeout =>
      url = page_url self p ∧ px = proxies self ∧ timeout = 10
  | Print _ => True
  | Sleep seconds => seconds = 5
  | _ => False
  end.

(** The [li] nodes the loops of [parse_page] reach, in the order they
    are reached. *)
Definition candidates (soup : node) : list node :=
  match find "div" [("id", MatchStr "mf-shop-content")] soup with
  | Some shop_content =>
      flat_map (find_all "li" [("class", MatchFn is_product_class)])
        (find_all "ul" [] shop_content)
  | None => []
  end.

Definition has_wrapper (product : node) : bool :=
  bool_decide (is_Some (find "div" (class_ "product-inner clearfix") product)).

(** A string [strip] leaves alone. *)
Definition trimmed (s : string) : Prop := Text.strip s = s.

Definition no_lead (s : string) : Prop :=
  match s with
  | EmptyString => True
  | String a _ => Text.isspace a = false
  end.

Definition no_trail (s : string) : Prop := no_lead (String.rev s).

(** The cache key of a record. *)
Definition cache_key (product : product_item) : string :=
  product_title product +:+ "_price".

(** The redis commands of a trace. *)
Definition gets (tr : list event) : list string :=
  omap (λ e, match e with RedisGet key => Some key | _ => None end) tr.

Definition sets (tr : list event) : list (string * string) :=
  omap (λ e, match e with
             | RedisSet key value => Some (key, value)
             | _ => None
             end) tr.

Definition notifications (tr : list event) : list string :=
  omap (λ e, match e with NotificationSend m => Some m | _ => None end) tr.

Definition loads (tr : list event) : nat :=
  length (List.filter (λ e, match e with StorageLoad => true | _ => false end)
            tr).

(** The attempt that settles the visit of a page: the first of the
    three that does not raise outside the requests hierarchy, if there
    is one. *)
Definition settling_attempt (net : network) (page : Z) : option outcome :=
  List.find (λ o, negb (crashes o))
    [net page 1%nat; net page 2%nat; net page 3%nat].

(** The markup the visit of a page delivers. *)
Definition page_markup (net : network) (page : Z) : option string :=
  o ← settling_attempt net page; fetched o.

(** [parse_page] with the constructor of line 83 as the library has
    it: [BeautifulSoup(html, "html.parser")] raises on markup the parser
    rejects, and returns the tree otherwise. *)
Definition parse_page_with (parser : string → result node) (html : string)
    : result (list product_item) :=
  soup ← parser html; parse_soup soup.

(** The loop of [scrape] over that [parse_page]. *)
Definition scrape_step_with (parser : string → result node)
    (self : Scraper.t) (net : network) (page : Z)
    (all_products : list product_item) : io (list product_item) :=
  html ← scrape_page self net page;
  match html with
  | Some html =>
      if Text.truthy html
      then products ← lift (parse_page_with parser html);
           mret (all_products ++ products)
      else mret all_products
  | None => mret all_products
  end.

Definition scrape_with (parser : string → result node) (self : Scraper.t)
    (net : network) : io (list product_item) :=
  for_each (scrape_step_with parser self net)
    (range 1 (page_limit self + 1)) [].

(** Records with the same title carry the same price. *)
Definition consistent (scraped_data : list product_item) : Prop :=
  ∀ p q, p ∈ scraped_data → q ∈ scraped_data →
         product_title p = product_title q →
         product_price p = product_price q.

End Obs.

(** ** Further sample sites and records *)

Module Cases.
Import Soup Scraper.

(** Every attempt raises outside the requests hierarchy. *)
Definition always_crashes : network :=
  λ _ _, Fails (OtherError "ValueError").


(** One page, whose only item has no thumbnail region. *)
Definition broken_page : string → node :=
  Sample.parser [("<page 1>", Sample.shop [Sample.widget_without_thumbnail])].

Definition one_page_site : network := Sample.site [Response 200 "<page 1>"].

Definition widget_a_cheaper : product_item :=
  {| product_title := "Widget A"; product_price := "$8.00";
     path_to_image := None |}.

Definition widget_b_record : product_item :=
  {| product_title := "Widget B"; product_price := "$5.00";
     path_to_image := None |}.

(** Pages 1 and 3 are served; every request for page 2 raises outside
    the requests hierarchy. *)
Definition second_page_crashes : network :=
  λ page _,
    if bool_decide (page = 1) then Response 200 "<page 1>"
    else if bool_decide (page = 3) then Response 200 "<page 3>"
    else Fails (OtherError "ValueError").

(** Page 1 is served at once; the first request for pages 2 and 3
    raises outside the requests hierarchy, the second is answered: 503
    for page 2, the markup for page 3. *)
Definition settles_on_retry : network :=
  λ page attempt,
    if bool_decide (page = 1) then Response 200 "<page 1>"
    else if bool_decide (attempt = 1%nat) then Fails (OtherError "ValueError")
    else if bool_decide (page = 3) then Response 200 "<page 3>"
    else Response 503 "down".

(** A parser that rejects one markup and reads the others as
    [Sample.three_pages] does. *)
Definition picky_parser (html : string) : result node :=
  if bool_decide (html = "<![foo[bar]]>")
  then Raise (OtherError "ParserRejectedMarkup")
  else Ok (Sample.three_pages html).

Definition rejected_page_site : network :=
  Sample.site [Response 200 "<page 1>"; Response 200 "<![foo[bar]]>"].

Definition json_controller : Controller.t JSONStorage ConsoleNotification :=
  {| Controller.storage := {| FILE := None |};
     Controller.notification := {| stdout := [] |} |}.

End Cases.

Import Soup Scraper Controller Props.

(** Unfold the chained lookups of [parse_product]. *)
Ltac unfold_chain :=
  unfold title_link, thumbnail_link, find_on, get_text_on, deref in *;
  simpl in *.

(** Case analysis on every lookup a goal still branches on. *)
Ltac destruct_lookups :=
  repeat (match goal with
          | |- context [match ?x with _ => _ end] =>
              destruct x eqn:?; simpl in *
          end; try done).

(** * Properties *)

(** ** The page fetcher *)

Section Fetcher.
Variable self : Scraper.t.
Variable net : network.

(** A request that is answered with a good status is not repeated. *)
Lemma scrape_page_fetched p text :
  fetched (net p 1%nat) = Some text →
  scrape_page self net p
  = ([HttpGet (page_url self p) (proxies self) 10], Ok (Some text)).
Proof.
  unfold fetched, scrape_page, retry, scrape_page_body, session_get,
    failed_status, page_url.
  simpl. destruct (net p 1%nat) as [status body|e]; [|done].
  simpl. unfold raise_for_status.
  destruct (_ && _); [done|]. by intros [= ->].
Qed.

(** A network-level failure of the first request is caught inside the
    decorated function: it is logged and [None] is returned, so the
    retry decorator sees a normal return and makes no second request. *)
Lemma scrape_page_network_failure p :
  network_failure (net p 1%nat) = true →
  ∃ line, scrape_page self net p
          = ([HttpGet (page_url self p) (proxies self) 10; Print line],
             Ok None).
Proof.
  unfold network_failure, scrape_page, retry, scrape_page_body, session_get,
    failed_status, page_url.
  simpl. destruct (net p 1%nat) as [status body|[]]; simpl; try done.
  - unfold raise_for_status. intros ->. simpl. eauto.
  - eauto.
Qed.

Lemma scrape_page_single_request p :
  network_failure (net p 1%nat) = true →
  requests (page_trace self net p) = [page_url self p]
  ∧ sleeps (page_trace self net p) = []
  ∧ snd (scrape_page self net p) = Ok None.
Proof.
  intros Hfail. unfold page_trace.
  by destruct (scrape_page_network_failure p Hfail) as [line ->].
Qed.




Lemma retry_loop_events {A} wait (fn : nat → io A) attempt remaining :
  (∀ n, Forall is_scraper_event (fst (fn n))) →
  Forall is_scraper_event (fst (retry_loop wait fn attempt remaining)).
Proof.
  intros Hfn. revert attempt.
  induction remaining as [|remaining IH]; intros attempt; simpl;
    pose proof (Hfn attempt) as Hn;
    destruct (fn attempt) as [tr [err|a]]; simpl in *; try done.
  specialize (IH (S attempt)).
  destruct (retry_loop wait fn (S attempt) remaining) as [tr' r]; simpl in *.
  apply Forall_app. split; [done|]. by constructor.
Qed.

Lemma scrape_page_body_events p attempt :
  Forall is_scraper_event (fst (scrape_page_body self net p attempt)).
Proof.
  unfold scrape_page_body, session_get. simpl.
  destruct (net p attempt) as [status body|e]; simpl.
  - unfold raise_for_status. destruct (_ && _); simpl; repeat constructor.
  - destruct e; simpl; repeat constructor.
Qed.

Lemma page_trace_events p : Forall is_scraper_event (page_trace self net p).
Proof. apply retry_loop_events. intros n. apply scrape_page_body_events. Qed.

End Fetcher.

(** C3. On a network-level failure the fetcher does not retry: the site
    below refuses the first connection to page 1 and would serve the
    second, yet [scrape_page] makes one request, never sleeps and
    returns [None].  The retry policy only applies to exceptions from
    outside the requests hierarchy, and when those exhaust the three
    attempts the call raises [RetryError] instead of reporting failure. *)
Theorem network_failure_not_retried :
  Sample.flaky_site 1 2%nat = Response 200 "<html>"
  ∧ scrape_page (Scraper.init 1 None) Sample.flaky_site 1
    = ([HttpGet "https://dentalstall.com/shop/page/1/" None 10;
        Print "Error fetching https://dentalstall.com/shop/page/1/: ConnectionError"],
       Ok None)
  ∧ scrape_page (Scraper.init 1 None) (λ _ _, Fails (OtherError "ValueError")) 1
    = ([HttpGet "https://dentalstall.com/shop/page/1/" None 10; Sleep 5;
        HttpGet "https://dentalstall.com/shop/page/1/" None 10; Sleep 5;
        HttpGet "https://dentalstall.com/shop/page/1/" None 10],
       Raise RetryError).
Proof. repeat split; vm_compute; reflexivity. Qed.

(** ** The pagination driver *)

Section Driver.
Variable BeautifulSoup : string → node.
Variable self : Scraper.t.
Variable net : network.

Lemma scrape_step_split p acc :
  scrape_step BeautifulSoup self net p acc
  = (page_trace self net p,
     (λ products, acc ++ products) <$> page_records BeautifulSoup self net p).
Proof.
  unfold page_trace, page_records, scrape_step.
  destruct (scrape_page self net p) as [tr [e|[html|]]]; simpl.
  - done.
  - destruct (Text.truthy html); simpl.
    + unfold lift.
      destruct (parse_page BeautifulSoup html); simpl; by rewrite ?app_nil_r.
    + by rewrite !app_nil_r.
  - by rewrite !app_nil_r.
Qed.

(** The loop of [scrape] returns the records of the pages in order, or
    raises what the first raising page raises. *)
Lemma scrape_loop_result pages acc :
  snd (for_each (scrape_step BeautifulSoup self net) pages acc)
  = (λ rs, acc ++ concat rs)
    <$> mapM (page_records BeautifulSoup self net) pages.
Proof.
  revert acc. induction pages as [|p pages IH]; intros acc; simpl.
  - by rewrite app_nil_r.
  - rewrite scrape_step_split.
    destruct (page_records BeautifulSoup self net p) as [e|recs]; simpl;
      [done|].
    specialize (IH (acc ++ recs)).
    destruct (for_each _ pages (acc ++ recs)) as [tr r]. simpl in *. subst r.
    destruct (mapM _ pages); simpl; [done|]. by rewrite app_assoc.
Qed.


Lemma scrape_loop_events pages acc :
  Forall is_scraper_event
    (fst (for_each (scrape_step BeautifulSoup self net) pages acc)).
Proof.
  revert acc. induction pages as [|p pages IH]; intros acc; simpl.
  - constructor.
  - rewrite scrape_step_split.
    pose proof (page_trace_events self net p) as Hp.
    destruct (page_records BeautifulSoup self net p) as [e|recs]; simpl;
      [done|].
    specialize (IH (acc ++ recs)).
    destruct (for_each _ pages (acc ++ recs)) as [tr r]. simpl in *.
    by apply Forall_app.
Qed.

Lemma page_records_fetched p html :
  fetched (net p 1%nat) = Some html →
  page_records BeautifulSoup self net p
  = if Text.truthy html then parse_page BeautifulSoup html else Ok [].
Proof.
  intros Hf. unfold page_records, scrape_step.
  rewrite (scrape_page_fetched _ _ _ _ Hf). simpl.
  destruct (Text.truthy html); [|done].
  unfold lift. by destruct (parse_page BeautifulSoup html).
Qed.

Lemma page_records_network_failure p :
  network_failure (net p 1%nat) = true →
  page_records BeautifulSoup self net p = Ok [].
Proof.
  intros Hf. unfold page_records, scrape_step.
  by destruct (scrape_page_network_failure self _ _ Hf) as [line ->].
Qed.

Lemma network_failure_not_fetched o :
  network_failure o = true → fetched o = None.
Proof. destruct o as [s body|[]]; simpl; try done. by intros ->. Qed.

Lemma truthy_empty html : Text.truthy html = false → html = "".
Proof. by destruct html. Qed.



Lemma scrape_events :
  Forall is_scraper_event (fst (scrape BeautifulSoup self net)).
Proof. apply scrape_loop_events. Qed.

End Driver.

(** ** The product extractor *)

Section Extractor.

Lemma has_attr_lookup img key :
  (if has_attr img key then tag_attrs img !! key else None)
  = tag_attrs img !! key.
Proof.
  unfold has_attr. case_bool_decide as Hs; [done|].
  symmetry. by apply eq_None_not_Some.
Qed.

(** An item with every region of the schema yields one record. *)
Lemma parse_product_priced product products product_inner details price_box
    link a :
  find "div" (class_ "product-inner clearfix") product = Some product_inner →
  find "div" (class_ "mf-product-details") product_inner = Some details →
  find "div" (class_ "mf-product-price-box") details = Some price_box →
  title_link details = Some a →
  thumbnail_link product_inner = Some link →
  parse_product product products
  = Ok (products ++ [ {| product_title := get_text_strip a;
                         product_price := select_price price_box;
                         path_to_image := image_of link |} ]).
Proof.
  intros Hinner Hdetails Hbox Htitle Hthumb.
  unfold parse_product. rewrite Hinner, Hdetails, Hbox.
  unfold_chain. unfold select_price, image_of.
  destruct (find "div" (class_ "mf-product-content") details) as [content|];
    [|done].
  simpl in *. destruct (find "h2" [] content) as [h2|]; [|done].
  simpl in *. rewrite Htitle. simpl.
  destruct (find "div" (class_ "mf-product-thumbnail") product_inner)
    as [th|]; [|done].
  simpl in *. rewrite Hthumb.
  destruct (find "ins" [] price_box); simpl.
  - destruct (find "img" [] link); simpl; by rewrite ?has_attr_lookup.
  - destruct (find "span" _ price_box); simpl;
      destruct (find "img" [] link); simpl; by rewrite ?has_attr_lookup.
Qed.

(** With a details region, a record is only produced when the title
    and the thumbnail chains are complete. *)
Lemma parse_product_needs_chains product products product_inner details
    products' :
  find "div" (class_ "product-inner clearfix") product = Some product_inner →
  find "div" (class_ "mf-product-details") product_inner = Some details →
  parse_product product products = Ok products' →
  is_Some (title_link details) ∧ is_Some (thumbnail_link product_inner).
Proof.
  intros Hinner Hdetails. unfold parse_product. rewrite Hinner, Hdetails.
  unfold_chain.
  destruct (find "div" (class_ "mf-product-content") details) as [content|];
    simpl; [|done].
  destruct (find "h2" [] content) as [h2|]; simpl; [|done].
  destruct (find "a" [] h2) as [a|]; simpl; [|done].
  destruct (find "div" (class_ "mf-product-thumbnail") product_inner)
    as [th|]; simpl; [|by destruct_lookups].
  destruct (find "a" [] th) as [link|]; simpl; [by eauto|].
  by destruct_lookups.
Qed.

(** C4. For an item with a price box, the price of the record is the
    text of the [ins] node when the box has one, else the text of the
    regular amount [span] when it has one, else ["N/A"]: whenever the
    item yields a record, and it does yield one when its title and
    thumbnail chains are complete. *)
Theorem price_prefers_sale product products product_inner details price_box :
  find "div" (class_ "product-inner clearfix") product = Some product_inner →
  find "div" (class_ "mf-product-details") product_inner = Some details →
  find "div" (class_ "mf-product-price-box") details = Some price_box →
  let price :=
    match find "ins" [] price_box with
    | Some ins_tag => get_text_strip ins_tag
    | None =>
        match find "span" (class_ "woocommerce-Price-amount amount")
                price_box with
        | Some bdi_tag => get_text_strip bdi_tag
        | None => "N/A"
        end
    end in
  (∀ products', parse_product product products = Ok products' →
     ∃ item, products' = products ++ [item] ∧ product_price item = price)
  ∧ (is_Some (title_link details) →
     is_Some (thumbnail_link product_inner) →
     ∃ item, parse_product product products = Ok (products ++ [item])
             ∧ product_price item = price).
Proof.
  intros Hinner Hdetails Hbox price.
  assert (is_Some (title_link details) →
          is_Some (thumbnail_link product_inner) →
          ∃ item, parse_product product products = Ok (products ++ [item])
                  ∧ product_price item = price) as Hboth.
  { intros [a Ha] [link Hlink]. eexists. split.
    - by eapply parse_product_priced.
    - done. }
  split; [|done].
  intros products' Hparse.
  destruct (parse_product_needs_chains _ _ _ _ _ Hinner Hdetails Hparse)
    as [Ha Hlink].
  destruct (Hboth Ha Hlink) as (item & Hitem & Hprice).
  exists item. split; [congruence|done].
Qed.

(** C7. Markup without the [div] of id [mf-shop-content] yields the
    empty list of records, and no exception. *)
Theorem parse_page_without_container (BeautifulSoup : string → node) html :
  find "div" [("id", MatchStr "mf-shop-content")] (BeautifulSoup html) = None →
  parse_page BeautifulSoup html = Ok [].
Proof. intros Hnone. unfold parse_page, parse_soup. by rewrite Hnone. Qed.

(** An item with the inner wrapper, no details region and a complete
    thumbnail chain yields a record with empty title and price; its
    cache key is ["_price"]. *)
Lemma parse_product_without_details product products product_inner link :
  find "div" (class_ "product-inner clearfix") product = Some product_inner →
  find "div" (class_ "mf-product-details") product_inner = None →
  thumbnail_link product_inner = Some link →
  parse_product product products
  = Ok (products ++ [ {| product_title := ""; product_price := "";
                         path_to_image := image_of link |} ]).
Proof.
  intros Hinner Hdetails Hthumb.
  unfold parse_product. rewrite Hinner, Hdetails.
  unfold_chain. unfold image_of.
  destruct (find "div" (class_ "mf-product-thumbnail") product_inner)
    as [th|]; [|done].
  simpl in *. rewrite Hthumb. simpl.
  destruct (find "img" [] link); simpl; by rewrite ?has_attr_lookup.
Qed.

Lemma untitled_records_share_cache_key product products product_inner link
    redis_client :
  find "div" (class_ "product-inner clearfix") product = Some product_inner →
  find "div" (class_ "mf-product-details") product_inner = None →
  thumbnail_link product_inner = Some link →
  ∃ item, parse_product product products = Ok (products ++ [item])
          ∧ product_title item = "" ∧ product_price item = ""
          ∧ head (commands (detect_updates [item] redis_client))
            = Some (RedisGet "_price").
Proof.
  intros Hinner Hdetails Hthumb. eexists. split.
  - by eapply parse_product_without_details.
  - repeat split. unfold detect_updates. simpl. unfold update_step. simpl.
    by destruct_lookups.
Qed.

End Extractor.

(** C2. A missing structural node aborts the extraction of the whole
    page.  Next to a well-formed first item, a second item without the
    heading chain, or without the thumbnail region, makes [parse_soup]
    raise [AttributeError] where the first item alone yields its record;
    the exception leaves [scrape] too, so a later good page is lost. *)
Theorem extraction_gap_aborts_page :
  parse_soup (Sample.shop [Sample.widget_a]) = Ok [Sample.widget_a_record]
  ∧ parse_soup (Sample.shop [Sample.widget_a; Sample.widget_without_heading])
    = Raise AttributeError
  ∧ parse_soup (Sample.shop [Sample.widget_a; Sample.widget_without_thumbnail])
    = Raise AttributeError
  ∧ snd (scrape
           (Sample.parser
              [("<page 1>",
                Sample.shop [Sample.widget_a; Sample.widget_without_thumbnail]);
               ("<page 2>", Sample.shop [Sample.widget_a])])
           (Scraper.init 2 None)
           (Sample.site [Response 200 "<page 1>"; Response 200 "<page 2>"]))
    = Raise AttributeError.
Proof. repeat split; vm_compute; reflexivity. Qed.

(** C10. An item with the inner wrapper, no details region and no
    thumbnail region yields no record: [parse_product] raises
    [AttributeError] at the unguarded thumbnail chain, and so does the
    page.  With the thumbnail region present the record with empty title
    and price is appended. *)
Theorem bare_item_aborts_page :
  is_Some (find "div" (class_ "product-inner clearfix") Sample.bare_item)
  ∧ parse_product Sample.bare_item [] = Raise AttributeError
  ∧ parse_soup (Sample.shop [Sample.widget_a; Sample.bare_item])
    = Raise AttributeError
  ∧ parse_soup (Sample.shop [Sample.bare_item_with_thumbnail "x.jpg"])
    = Ok [ {| product_title := ""; product_price := "";
              path_to_image := Some (AttrStr "x.jpg") |} ].
Proof. repeat split; vm_compute; eauto. Qed.

(** ** The scrape orchestrator *)

Section Orchestrator.

Lemma detect_updates_snoc scraped_data product redis0 :
  detect_updates (scraped_data ++ [product]) redis0
  = update_step (detect_updates scraped_data redis0) product.
Proof. unfold detect_updates. by rewrite fold_left_app. Qed.

(** C1. When the diff loop reaches a scraped record, it counts the
    record as updated if and only if the cache has no entry under
    [<title>_price] or has one that differs from the record's price; in
    that case it sets the entry to the price, and otherwise it leaves
    the count and the cache as they are and sends no [set]. *)
Theorem update_iff_cache_differs scraped_data redis0 i product :
  scraped_data !! i = Some product →
  let before := detect_updates (take i scraped_data) redis0 in
  let after := detect_updates (take (S i) scraped_data) redis0 in
  let cache_key := product_title product +:+ "_price" in
  let price := product_price product in
  let differs :=
    redis before !! cache_key = None
    ∨ ∃ cached, redis before !! cache_key = Some cached ∧ cached ≠ price in
  (updated_count after = updated_count before + 1 ↔ differs)
  ∧ (differs →
     redis after = <[cache_key := price]> (redis before)
     ∧ commands after
       = commands before ++ [RedisGet cache_key; RedisSet cache_key price])
  ∧ (redis before !! cache_key = Some price →
     updated_count after = updated_count before
     ∧ redis after = redis before
     ∧ commands after = commands before ++ [RedisGet cache_key]).
Proof.
  intros Hi before after cache_key price differs.
  assert (after = update_step before product) as Hafter.
  { unfold after, before. rewrite (take_S_r _ _ _ Hi).
    apply detect_updates_snoc. }
  rewrite Hafter. unfold update_step, differs. fold cache_key. fold price.
  destruct (redis before !! cache_key) as [cached|] eqn:Hcached; simpl.
  - case_bool_decide as Heq; simpl.
    + subst cached. split; [|split].
      * split; [lia|]. intros [?|(c & [= <-] & ?)]; done.
      * intros [?|(c & [= <-] & ?)]; done.
      * done.
    + split; [|split].
      * split; [|done]. intros _. right. eauto.
      * intros _. by rewrite <- app_assoc.
      * intros [= ?]. done.
  - split; [|split].
    + split; [|done]. intros _. by left.
    + intros _. by rewrite <- app_assoc.
    + done.
Qed.

Lemma updated_count_nonneg scraped_data redis0 :
  0 ≤ updated_count (detect_updates scraped_data redis0).
Proof.
  induction scraped_data as [|product scraped_data IH] using rev_ind; [done|].
  rewrite detect_updates_snoc. unfold update_step.
  destruct (match _ with Some _ => _ | None => _ end); simpl; lia.
Qed.

Lemma commands_redis scraped_data redis0 :
  Forall is_redis_command (commands (detect_updates scraped_data redis0)).
Proof.
  induction scraped_data as [|product scraped_data IH] using rev_ind.
  - constructor.
  - rewrite detect_updates_snoc. unfold update_step.
    destruct (match _ with Some _ => _ | None => _ end); simpl;
      repeat (apply Forall_app; split); repeat constructor; done.
Qed.

Lemma saves_app tr1 tr2 : saves (tr1 ++ tr2) = saves tr1 ++ saves tr2.
Proof. apply omap_app. Qed.

Lemma saves_scraper tr : Forall is_scraper_event tr → saves tr = [].
Proof. induction 1 as [|e tr He _ IH]; [done|]. by destruct e. Qed.

Lemma saves_redis tr : Forall is_redis_command tr → saves tr = [].
Proof. induction 1 as [|e tr He _ IH]; [done|]. by destruct e. Qed.

Context {S N : Type} `{!StorageStrategy S, !NotificationStrategy N}.
Variable BeautifulSoup : string → node.
Variable net : network.

(** C8. A run calls [save] once, with the whole scraped list, when
    [updated_count] is positive; when it is zero (or when scraping
    raises) [save] is not called and the storage is as before. *)
Theorem save_iff_updated (ctl : Controller.t S N) redis0 page_limit proxy :
  let r := scrape_and_store BeautifulSoup net ctl redis0 page_limit proxy in
  match scrape BeautifulSoup (Scraper.init page_limit proxy) net with
  | (_, inr scraped_data) =>
      let n := updated_count (detect_updates scraped_data redis0) in
      0 ≤ n
      ∧ (0 < n → saves (trace r) = [scraped_data]
                 ∧ storage (self r) = save scraped_data (storage ctl))
      ∧ (n = 0 → saves (trace r) = []
                 ∧ storage (self r) = storage ctl)
  | (_, inl _) => saves (trace r) = [] ∧ storage (self r) = storage ctl
  end.
Proof.
  intros r. subst r. unfold scrape_and_store.
  pose proof (scrape_events BeautifulSoup (Scraper.init page_limit proxy) net)
    as Hev.
  destruct (scrape _ _ _) as [tr [e|scraped_data]];
    simpl in Hev; cbn [trace self storage].
  - split; [|done]. by apply saves_scraper.
  - pose proof (commands_redis scraped_data redis0) as Hcmd.
    split; [apply updated_count_nonneg|].
    rewrite !saves_app, (saves_scraper _ Hev), (saves_redis _ Hcmd).
    split; intros Hn; case_bool_decide; try lia; done.
Qed.

End Orchestrator.

(** C9. Two runs that differ only in what the storage holds, and even
    in the storage strategy, return the same response, leave the same
    cache, and have the same trace, redis commands included; the
    notifier ends in the same state.  The loaded dataset plays no part. *)
Theorem diff_ignores_stored_data {S1 S2 N : Type}
    `{!StorageStrategy S1, !StorageStrategy S2, !NotificationStrategy N}
    BeautifulSoup net (storage1 : S1) (storage2 : S2) (notifier : N)
    redis0 page_limit proxy :
  let r1 := scrape_and_store BeautifulSoup net
              {| storage := storage1; notification := notifier |}
              redis0 page_limit proxy in
  let r2 := scrape_and_store BeautifulSoup net
              {| storage := storage2; notification := notifier |}
              redis0 page_limit proxy in
  response r1 = response r2
  ∧ redis_client r1 = redis_client r2
  ∧ trace r1 = trace r2
  ∧ notification (self r1) = notification (self r2).
Proof.
  intros r1 r2. subst r1 r2. unfold scrape_and_store.
  by destruct (scrape _ _ _) as [tr [e|scraped_data]].
Qed.

(** * Instances on the sample pages *)

(** The second of two identical records finds its price in the cache:
    it is not counted and the cache stays as the first one left it. *)
Lemma update_iff_cache_differs_witness :
  [Sample.widget_a_record; Sample.widget_a_record] !! 1%nat
  = Some Sample.widget_a_record
  ∧ updated_count
      (detect_updates
         (take 2 [Sample.widget_a_record; Sample.widget_a_record]) ∅)
    = updated_count
        (detect_updates
           (take 1 [Sample.widget_a_record; Sample.widget_a_record]) ∅)
  ∧ redis
      (detect_updates
         (take 2 [Sample.widget_a_record; Sample.widget_a_record]) ∅)
    = redis
        (detect_updates
           (take 1 [Sample.widget_a_record; Sample.widget_a_record]) ∅).
Proof.
  split; [reflexivity|].
  destruct (update_iff_cache_differs
              [Sample.widget_a_record; Sample.widget_a_record] ∅ 1
              Sample.widget_a_record eq_refl) as (_ & _ & Hsame).
  destruct Hsame as (Hcount & Hredis & _); [vm_compute; reflexivity|].
  split; [exact Hcount|exact Hredis].
Defined.

(** The item on sale is priced at its sale price. *)
Lemma price_prefers_sale_witness :
  find "div" (class_ "product-inner clearfix") Sample.widget_a
  = Some Sample.widget_a_inner
  ∧ find "div" (class_ "mf-product-details") Sample.widget_a_inner
    = Some Sample.widget_a_details
  ∧ find "div" (class_ "mf-product-price-box") Sample.widget_a_details
    = Some Sample.widget_a_price_box
  ∧ ∃ item, parse_product Sample.widget_a [] = Ok ([] ++ [item])
            ∧ product_price item = "$9.99".
Proof.
  assert (find "div" (class_ "product-inner clearfix") Sample.widget_a
          = Some Sample.widget_a_inner) as Hinner
    by (vm_compute; reflexivity).
  assert (find "div" (class_ "mf-product-details") Sample.widget_a_inner
          = Some Sample.widget_a_details) as Hdetails
    by (vm_compute; reflexivity).
  assert (find "div" (class_ "mf-product-price-box") Sample.widget_a_details
          = Some Sample.widget_a_price_box) as Hbox
    by (vm_compute; reflexivity).
  repeat split; try assumption.
  destruct (price_prefers_sale Sample.widget_a [] _ _ _ Hinner Hdetails Hbox)
    as [_ Hitem].
  destruct Hitem as (item & Hparse & Hprice).
  - vm_compute. eauto.
  - vm_compute. eauto.
  - exists item. split; [exact Hparse|].
    rewrite Hprice. vm_compute. reflexivity.
Defined.


(** Markup the parser finds no element in. *)
Lemma parse_page_without_container_witness :
  find "div" [("id", MatchStr "mf-shop-content")]
    (Sample.three_pages "<html></html>") = None
  ∧ parse_page Sample.three_pages "<html></html>" = Ok [].
Proof.
  split; [vm_compute; reflexivity|].
  apply parse_page_without_container. vm_compute. reflexivity.
Defined.

(** One of the two scraped records is new to the empty cache: the file
    is written once, with both. *)
Lemma save_iff_updated_witness :
  saves (trace (scrape_and_store Sample.three_pages Sample.second_page_down
                  {| storage := {| FILE := None |};
                     notification := {| stdout := [] |} |}
                  ∅ 3 None))
  = [[Sample.widget_a_record; Sample.widget_a_record]]
  ∧ storage (self (scrape_and_store Sample.three_pages
                     Sample.second_page_down
                     {| storage := {| FILE := None |};
                        notification := {| stdout := [] |} |}
                     ∅ 3 None))
    = {| FILE := Some [Sample.widget_a_record; Sample.widget_a_record] |}.
Proof.
  pose proof (save_iff_updated Sample.three_pages Sample.second_page_down
                {| storage := {| FILE := None |};
                   notification := {| stdout := [] |} |}
                ∅ 3 None) as Hrun.
  assert (scrape Sample.three_pages (Scraper.init 3 None)
            Sample.second_page_down
          = (fst (scrape Sample.three_pages (Scraper.init 3 None)
                    Sample.second_page_down),
             Ok [Sample.widget_a_record; Sample.widget_a_record])) as Hscrape
    by (vm_compute; reflexivity).
  rewrite Hscrape in Hrun. cbv zeta in Hrun.
  destruct Hrun as (_ & Hsaved & _).
  apply Hsaved. vm_compute. reflexivity.
Defined.

(** * Further properties *)

Import Obs.

(** ** The page fetcher, attempt by attempt *)

Section Attempts.
Variable self : Scraper.t.
Variable net : network.

(** What one call of the undecorated body does, by what the site does. *)
Lemma scrape_page_body_cases p attempt :
  scrape_page_body self net p attempt
  = match net p attempt with
    | Response status_code text =>
        if failed_status status_code
        then ([HttpGet (page_url self p) (proxies self) 10;
               Print ("Error fetching " +:+ page_url self p +:+ ": "
                      +:+ str_request_error (HTTPError status_code))],
              Ok None)
        else ([HttpGet (page_url self p) (proxies self) 10], Ok (Some text))
    | Fails (RequestException r) =>
        ([HttpGet (page_url self p) (proxies self) 10;
          Print ("Error fetching " +:+ page_url self p +:+ ": "
                 +:+ str_request_error r)],
         Ok None)
    | Fails e => ([HttpGet (page_url self p) (proxies self) 10], Raise e)
    end.
Proof.
  unfold scrape_page_body, session_get, page_url, failed_status. simpl.
  destruct (net p attempt) as [status body|e]; simpl.
  - unfold raise_for_status. by destruct (_ && _).
  - by destruct e.
Qed.

(** An attempt that does not crash settles the call. *)
Lemma scrape_page_body_settles p attempt :
  crashes (net p attempt) = false →
  ∃ tr, scrape_page_body self net p attempt = (tr, Ok (fetched (net p attempt)))
        ∧ requests tr = [page_url self p] ∧ sleeps tr = []
        ∧ Forall (page_event_ok self p) tr.
Proof.
  intros Hc. rewrite scrape_page_body_cases.
  destruct (net p attempt) as [status body|[]]; simpl in *; try done.
  - destruct (failed_status status); eexists; split; try done;
      repeat split; repeat constructor.
  - eexists. split; [done|]. repeat split; repeat constructor.
Qed.

Lemma scrape_page_body_crashes p attempt :
  crashes (net p attempt) = true →
  ∃ e, scrape_page_body self net p attempt
       = ([HttpGet (page_url self p) (proxies self) 10], Raise e).
Proof.
  intros Hc. rewrite scrape_page_body_cases.
  destruct (net p attempt) as [status body|[]]; simpl in *; try done; eauto.
Qed.

Lemma retry_loop_last {A} wait (fn : nat → io A) attempt :
  retry_loop wait fn attempt 0
  = match fn attempt with
    | (tr, inr a) => (tr, Ok a)
    | (tr, inl _) => (tr, Raise RetryError)
    end.
Proof. done. Qed.

Lemma retry_loop_again {A} wait (fn : nat → io A) attempt remaining :
  retry_loop wait fn attempt (S remaining)
  = match fn attempt with
    | (tr, inr a) => (tr, Ok a)
    | (tr, inl _) =>
        let '(tr', r) := retry_loop wait fn (S attempt) remaining in
        (tr ++ Sleep wait :: tr', r)
    end.
Proof. done. Qed.

Lemma scrape_page_unfold p :
  scrape_page self net p
  = retry_loop 5 (scrape_page_body self net p) 1 2.
Proof. done. Qed.

(** Case analysis on the attempts of one visit, first to last. *)
Ltac by_attempts p :=
  rewrite ?scrape_page_unfold;
  repeat
    (rewrite ?retry_loop_again, ?retry_loop_last;
     match goal with
     | |- context [scrape_page_body self net p ?k] =>
         let Hc := fresh "Hc" in
         destruct (crashes (net p k)) eqn:Hc;
         [ let e := fresh "e" in
           destruct (scrape_page_body_crashes p k Hc) as [e ->]
         | let tr := fresh "tr" in
           let Hreq := fresh "Hreq" in
           let Hsl := fresh "Hsl" in
           let Hev := fresh "Hev" in
           destruct (scrape_page_body_settles p k Hc)
             as (tr & -> & Hreq & Hsl & Hev) ]
     end).

Lemma requests_app tr1 tr2 : requests (tr1 ++ tr2) = requests tr1 ++ requests tr2.
Proof. apply omap_app. Qed.

Lemma sleeps_app tr1 tr2 : sleeps (tr1 ++ tr2) = sleeps tr1 ++ sleeps tr2.
Proof. apply omap_app. Qed.






Lemma page_trace_requests p :
  (1 ≤ length (requests (page_trace self net p)) ≤ 3)%nat
  ∧ sleeps (page_trace self net p)
    = replicate (length (requests (page_trace self net p)) - 1) 5.
Proof.
  unfold page_trace. by_attempts p; simpl;
    rewrite ?requests_app, ?sleeps_app, ?Hreq, ?Hsl, ?Hreq0, ?Hsl0; simpl;
    (split; [lia|done]).
Qed.

Lemma page_trace_events_ok p :
  Forall (page_event_ok self p) (page_trace self net p).
Proof.
  unfold page_trace. by_attempts p; cbn [fst];
    repeat first [ apply Forall_cons; split; [done|]
                 | apply Forall_app; split
                 | assumption | constructor ]; done.
Qed.

Lemma scrape_page_raises_RetryError p e :
  snd (scrape_page self net p) = Raise e → e = RetryError.
Proof. by_attempts p; cbn [snd]; by intros [= <-]. Qed.

(** A visit that one of its attempts settles returns what that attempt
    delivers: the markup, or [None] after a network-level failure. *)
Lemma scrape_page_settled p o :
  settling_attempt net p = Some o →
  snd (scrape_page self net p) = Ok (fetched o).
Proof.
  unfold settling_attempt. cbn [List.find].
  by_attempts p; cbn [snd negb]; try done; by intros [= <-].
Qed.


(** X2. A visit raises only [RetryError], and exactly when each of the
    three attempts raised outside the requests hierarchy; it has then
    made three requests and slept twice. *)
Theorem scrape_page_raises_iff p :
  (∀ e, snd (scrape_page self net p) = Raise e → e = RetryError)
  ∧ ((∃ e, snd (scrape_page self net p) = Raise e)
     ↔ crashes (net p 1%nat) = true ∧ crashes (net p 2%nat) = true
       ∧ crashes (net p 3%nat) = true)
  ∧ (crashes (net p 1%nat) = true → crashes (net p 2%nat) = true →
     crashes (net p 3%nat) = true →
     scrape_page self net p
     = ([HttpGet (page_url self p) (proxies self) 10; Sleep 5;
         HttpGet (page_url self p) (proxies self) 10; Sleep 5;
         HttpGet (page_url self p) (proxies self) 10],
        Raise RetryError)).
Proof.
  by_attempts p; simpl; (split; [intros ? [=]; done|]);
    (split; [split; [intros [? [=]]; done | intros (?&?&?); try done; eauto]|]);
    intros; try done.
Qed.


End Attempts.

(** ** The pagination driver, beyond the claims *)

Section Pages.
Variable BeautifulSoup : string → node.
Variable self : Scraper.t.
Variable net : network.

(** The loop visits a prefix of its pages: all of them, or those up to
    the first that raises. *)
Lemma scrape_loop_trace pages acc :
  ∃ m, (m ≤ length pages)%nat
       ∧ fst (for_each (scrape_step BeautifulSoup self net) pages acc)
         = concat (page_trace self net <$> take m pages).
Proof.
  revert acc. induction pages as [|p pages IH]; intros acc.
  - exists 0%nat. done.
  - simpl. rewrite scrape_step_split.
    destruct (page_records BeautifulSoup self net p) as [e|recs]; simpl.
    + exists 1%nat. split; [lia|]. simpl. by rewrite app_nil_r.
    + destruct (IH (acc ++ recs)) as (m & Hm & Htr).
      destruct (for_each _ pages (acc ++ recs)) as [tr r]. simpl in *.
      exists (S m). split; [lia|]. simpl. by rewrite Htr.
Qed.

(** X4. With a page limit of zero or less nothing is requested and the
    result is the empty list. *)
Theorem scrape_nonpositive_limit :
  page_limit self ≤ 0 →
  scrape BeautifulSoup self net = ([], Ok []).
Proof.
  intros Hle. unfold scrape, range. by rewrite seqZ_nil by lia.
Qed.

Lemma page_event_in_range p e :
  1 ≤ p ≤ page_limit self →
  page_event_ok self p e → scraper_event_ok self e.
Proof. intros Hp. destruct e; simpl; try done. intros (?&?&?). eauto. Qed.

Lemma visits_in_range pages :
  (∀ p, p ∈ pages → 1 ≤ p ≤ page_limit self) →
  Forall (scraper_event_ok self) (concat (page_trace self net <$> pages))
  ∧ (length (requests (concat (page_trace self net <$> pages)))
     ≤ 3 * length pages)%nat.
Proof.
  induction pages as [|p pages IH]; intros Hin; [by split; constructor|].
  destruct IH as [IHok IHlen].
  { intros q Hq. apply Hin. by right. }
  destruct (page_trace_requests self net p) as [[_ Hmax] _].
  pose proof (page_trace_events_ok self net p) as Hok.
  rewrite fmap_cons. cbn [concat length]. split.
  - apply Forall_app. split; [|done].
    eapply Forall_impl; [exact Hok|]. intros e.
    apply page_event_in_range, Hin. by left.
  - rewrite requests_app, length_app. lia.
Qed.

(** X5. Every request of a scrape goes to the URL of a page between 1
    and [page_limit], through the configured proxies and with timeout
    10; every sleep lasts 5; the trace holds nothing but requests,
    prints and sleeps; and there are at most three requests per page. *)
Theorem scrape_requests_in_range :
  let tr := fst (scrape BeautifulSoup self net) in
  Forall (scraper_event_ok self) tr
  ∧ (length (requests tr) ≤ 3 * Z.to_nat (page_limit self))%nat.
Proof.
  intros tr. subst tr. unfold scrape, range.
  replace (page_limit self + 1 - 1) with (page_limit self) by lia.
  destruct (scrape_loop_trace (seqZ 1 (page_limit self)) [])
    as (m & Hm & ->).
  rewrite length_seqZ in Hm.
  destruct (visits_in_range (take m (seqZ 1 (page_limit self))))
    as [Hok Hlen].
  { intros p Hp. apply (subseteq_take m) in Hp.
    apply elem_of_seqZ in Hp. lia. }
  split; [done|].
  rewrite length_take, length_seqZ in Hlen. lia.
Qed.

End Pages.

(** ** Failed fetches do not stop the scrape *)

Section Isolation.
Variable BeautifulSoup : string → node.
Variable self : Scraper.t.
Variable net : network.

Lemma page_records_settled p o :
  settling_attempt net p = Some o →
  page_records BeautifulSoup self net p
  = match fetched o with
    | Some html =>
        if Text.truthy html then parse_page BeautifulSoup html else Ok []
    | None => Ok []
    end.
Proof.
  intros Hsettled%(scrape_page_settled self).
  unfold page_records, scrape_step.
  destruct (scrape_page self net p) as [tr r]. simpl in Hsettled. subst r.
  destruct (fetched o) as [html|]; simpl; [|done].
  destruct (Text.truthy html); [|done].
  unfold lift. by destruct (parse_page BeautifulSoup html).
Qed.

(** C5, amended. When the visit of every page of the range is settled
    by one of its three attempts, [scrape] returns what extraction gives
    on the pages that delivered markup, in page order: a page whose
    settling attempt failed at the network level contributes no record
    and does not stop the loop.  (Markup without text yields no record,
    which is what the parser gives on the empty string.) *)
Theorem scrape_skips_failed_pages :
  parse_page BeautifulSoup "" = Ok [] →
  (∀ p, 1 ≤ p ≤ page_limit self → is_Some (settling_attempt net p)) →
  snd (scrape BeautifulSoup self net)
  = @concat _
    <$> mapM (parse_page BeautifulSoup)
          (omap (page_markup net) (seqZ 1 (page_limit self))).
Proof.
  intros Hempty Hnet. unfold scrape, range. rewrite scrape_loop_result.
  replace (page_limit self + 1 - 1) with (page_limit self) by lia.
  assert (Forall (λ p, is_Some (settling_attempt net p))
            (seqZ 1 (page_limit self))) as Hall.
  { apply Forall_forall. intros p [??]%elem_of_seqZ. apply Hnet. lia. }
  clear Hnet. induction Hall as [|p pages [o Ho] _ IH]; [done|].
  cbn [omap list_omap].
  change (mapM (page_records BeautifulSoup self net) (p :: pages))
    with (y ← page_records BeautifulSoup self net p;
          k ← mapM (page_records BeautifulSoup self net) pages;
          mret (y :: k)).
  rewrite (page_records_settled p o Ho).
  unfold page_markup at 1. rewrite Ho. cbn [mbind option_bind].
  destruct (fetched o) as [html|].
  - change (mapM (parse_page BeautifulSoup) (html :: ?l))
      with (y ← parse_page BeautifulSoup html;
            k ← mapM (parse_page BeautifulSoup) l; mret (y :: k)).
    destruct (Text.truthy html) eqn:Ht.
    + destruct (parse_page BeautifulSoup html) as [e|recs]; simpl; [done|].
      simpl in IH.
      destruct (mapM (page_records BeautifulSoup self net) pages);
        destruct (mapM (parse_page BeautifulSoup) _); simpl in *; congruence.
    + apply truthy_empty in Ht as ->. rewrite Hempty. simpl. simpl in IH.
      destruct (mapM (page_records BeautifulSoup self net) pages);
        destruct (mapM (parse_page BeautifulSoup) _); simpl in *; congruence.
  - simpl. rewrite <- IH. by destruct (mapM _ pages).
Qed.

End Isolation.

(** ** The product extractor, beyond the claims *)

Section Records.

(** The records already extracted play no part in the extraction of the
    next item. *)
Lemma parse_product_acc product products :
  parse_product product products
  = (λ l, products ++ l) <$> parse_product product [].
Proof.
  unfold parse_product.
  destruct (find "div" (class_ "product-inner clearfix") product)
    as [product_inner|]; [|simpl; by rewrite app_nil_r].
  unfold_chain. destruct_lookups.
Qed.

(** An item yields no record when it has no inner wrapper, and at most
    one when it has. *)
Lemma parse_product_alone product l :
  parse_product product [] = Ok l →
  if has_wrapper product then ∃ item, l = [item] else l = [].
Proof.
  unfold parse_product, has_wrapper.
  destruct (find "div" (class_ "product-inner clearfix") product)
    as [product_inner|] eqn:Hinner.
  - rewrite bool_decide_eq_true_2 by eauto.
    unfold_chain. destruct_lookups; intros [= <-]; eauto.
  - rewrite bool_decide_eq_false_2 by (by intros [? [=]]).
    by intros [= <-].
Qed.

Lemma parse_product_no_wrapper product products :
  has_wrapper product = false → parse_product product products = Ok products.
Proof.
  unfold has_wrapper, parse_product. intros Hw.
  destruct (find "div" (class_ "product-inner clearfix") product); [|done].
  apply bool_decide_eq_false in Hw. destruct Hw. eauto.
Qed.

Lemma parse_product_raises product products e :
  parse_product product products = Raise e → e = AttributeError.
Proof.
  unfold parse_product.
  destruct (find "div" (class_ "product-inner clearfix") product)
    as [product_inner|]; [|done].
  unfold_chain. destruct_lookups; by intros [= <-].
Qed.

Lemma for_each_result_app {A B} (body : A → B → result B) l1 l2 acc :
  for_each body (l1 ++ l2) acc
  = acc' ← for_each body l1 acc; for_each body l2 acc'.
Proof.
  revert acc. induction l1 as [|x l1 IH]; intros acc; simpl; [done|].
  destruct (body x acc) as [e|acc']; simpl; [done|]. apply IH.
Qed.

(** The two nested loops are one loop over the candidates. *)
Lemma parse_soup_flat soup :
  parse_soup soup = for_each parse_product (candidates soup) [].
Proof.
  unfold parse_soup, candidates.
  destruct (find "div" [("id", MatchStr "mf-shop-content")] soup)
    as [shop_content|]; [|done].
  generalize (@nil product_item) as acc.
  induction (find_all "ul" [] shop_content) as [|ul uls IH]; intros acc;
    simpl; [done|].
  rewrite for_each_result_app.
  destruct (for_each parse_product _ acc) as [e|acc']; simpl; [done|].
  apply IH.
Qed.

Lemma for_each_parse_product_raises l acc e :
  for_each parse_product l acc = Raise e → e = AttributeError.
Proof.
  revert acc. induction l as [|product l IH]; intros acc; simpl; [done|].
  destruct (parse_product product acc) as [e'|acc'] eqn:Hp; simpl.
  - intros [= <-]. by eapply parse_product_raises.
  - apply IH.
Qed.

Lemma for_each_parse_product_records l acc records :
  for_each parse_product l acc = Ok records
  ↔ ∃ items, records = acc ++ items
             ∧ Forall2 (λ product item, parse_product product [] = Ok [item])
                 (List.filter has_wrapper l) items.
Proof.
  revert acc. induction l as [|product l IH]; intros acc; simpl.
  - split.
    + intros [= <-]. exists []. by rewrite app_nil_r.
    + intros (items & -> & Hall). inversion Hall. by rewrite app_nil_r.
  - rewrite parse_product_acc.
    destruct (has_wrapper product) eqn:Hw.
    + destruct (parse_product product []) as [e|l1] eqn:Hp; simpl.
      * split; [done|]. intros (items & _ & Hall).
        inversion Hall; congruence.
      * pose proof (parse_product_alone _ _ Hp) as Hone.
        rewrite Hw in Hone. destruct Hone as [item ->].
        rewrite IH. split.
        -- intros (items & -> & Hall). exists (item :: items).
           split; [by rewrite <- app_assoc|]. by constructor.
        -- intros (items & -> & Hall).
           inversion Hall as [|? item' ? items' Hitem Hrest]; subst.
           assert (item' = item) as -> by congruence.
           exists items'. split; [by rewrite <- app_assoc|done].
    + rewrite (parse_product_no_wrapper _ [] Hw). simpl.
      rewrite app_nil_r. apply IH.
Qed.

(** The walk over a parsed tree raises nothing but [AttributeError]. *)
Lemma parse_soup_raises_only_AttributeError soup e :
  parse_soup soup = Raise e → e = AttributeError.
Proof. rewrite parse_soup_flat. apply for_each_parse_product_raises. Qed.

(** X7. A page yields its records exactly when each candidate item
    with an inner wrapper yields one: the records are those, one per
    such item in the order the loops reach them, and items without the
    wrapper are passed over.  (An [li] below two nested [ul]s is reached
    twice.) *)
Theorem parse_soup_records soup records :
  parse_soup soup = Ok records
  ↔ Forall2 (λ product item, parse_product product [] = Ok [item])
      (List.filter has_wrapper (candidates soup)) records.
Proof.
  rewrite parse_soup_flat, for_each_parse_product_records. split.
  - by intros (items & -> & Hall).
  - intros Hall. by exists records.
Qed.

End Records.

(** ** What a scrape can raise *)

Section Raises.
Variable parser : string → result node.
Variable self : Scraper.t.
Variable net : network.

(** With a parser that accepts every markup the loop is that of
    [scrape]. *)
Lemma scrape_with_total (BeautifulSoup : string → node) :
  scrape_with (λ html, Ok (BeautifulSoup html)) self net
  = scrape BeautifulSoup self net.
Proof. reflexivity. Qed.

Lemma parse_page_with_raises html e :
  parse_page_with parser html = Raise e →
  e = AttributeError ∨ parser html = Raise e.
Proof.
  unfold parse_page_with.
  destruct (parser html) as [e'|soup]; simpl.
  - intros [= <-]. by right.
  - intros Hwalk. left. by eapply parse_soup_raises_only_AttributeError.
Qed.

Lemma scrape_step_with_raises p acc e :
  snd (scrape_step_with parser self net p acc) = Raise e →
  e = AttributeError ∨ e = RetryError
  ∨ ∃ html, snd (scrape_page self net p) = Ok (Some html)
            ∧ parser html = Raise e.
Proof.
  unfold scrape_step_with.
  pose proof (scrape_page_raises_RetryError self net p) as Hretry.
  destruct (scrape_page self net p) as [tr [e'|[html|]]]; simpl in *.
  - intros [= <-]. right. left. by apply Hretry.
  - destruct (Text.truthy html); [|done]. unfold lift.
    destruct (parse_page_with parser html) as [e'|products] eqn:Hp;
      simpl; [|done].
    intros [= <-].
    destruct (parse_page_with_raises _ _ Hp) as [->|Hrejected]; [by left|].
    right. right. by exists html.
  - done.
Qed.

Lemma scrape_loop_with_raises pages acc e :
  snd (for_each (scrape_step_with parser self net) pages acc) = Raise e →
  ∃ p acc', p ∈ pages
            ∧ snd (scrape_step_with parser self net p acc') = Raise e.
Proof.
  revert acc. induction pages as [|p pages IH]; intros acc; simpl; [done|].
  destruct (scrape_step_with parser self net p acc) as [tr [e'|acc']] eqn:Hp;
    simpl.
  - intros [= <-]. exists p, acc. split; [by left|]. by rewrite Hp.
  - specialize (IH acc').
    destruct (for_each _ pages acc') as [tr' r]. simpl in *.
    intros Hr. destruct (IH Hr) as (q & acc'' & Hq & Hraise).
    exists q, acc''. split; [by right|done].
Qed.

(** X6. [parse_page] raises only [AttributeError], from the walk over
    the tree, or what the parser raises on the markup it is given. *)
Theorem parse_page_raises_only html e :
  parse_page_with parser html = Raise e →
  e = AttributeError ∨ parser html = Raise e.
Proof.
  unfold parse_page_with.
  destruct (parser html) as [e'|soup] eqn:Hparsed; simpl.
  - intros [= <-]. by right.
  - rewrite parse_soup_flat. intros Hwalk. left.
    by eapply for_each_parse_product_raises.
Qed.

(** X8. A scrape raises only [AttributeError], from the walk over a
    page's tree, [RetryError], from a fetch whose three attempts all
    raised outside the requests hierarchy, or what the parser raises on
    the markup of a fetched page; a network-level failure never leaves
    [scrape]. *)
Theorem scrape_raises_only e :
  snd (scrape_with parser self net) = Raise e →
  e = AttributeError ∨ e = RetryError
  ∨ ∃ p html, 1 ≤ p ≤ page_limit self
              ∧ snd (scrape_page self net p) = Ok (Some html)
              ∧ parser html = Raise e.
Proof.
  unfold scrape_with, range.
  intros (p & acc & Hp & Hraise)%scrape_loop_with_raises.
  apply elem_of_seqZ in Hp.
  destruct (scrape_step_with_raises _ _ _ Hraise)
    as [->|[->|(html & Hfetched & Hrejected)]]; [by left|by right; left|].
  right. right. exists p, html. split; [lia|done].
Qed.

End Raises.

(** ** Extracted text is trimmed *)

Section Trimmed.

Lemma append_cons a (s t : string) : String a s +:+ t = String a (s +:+ t).
Proof. done. Qed.

Lemma append_assoc (s1 s2 s3 : string) :
  (s1 +:+ s2) +:+ s3 = s1 +:+ (s2 +:+ s3).
Proof.
  induction s1 as [|a s1 IH]; [done|]. by rewrite !append_cons, IH.
Qed.

Lemma append_empty_r (s : string) : s +:+ "" = s.
Proof. induction s as [|a s IH]; [done|]. by rewrite append_cons, IH. Qed.

Lemma rev_app_append s1 s2 : String.rev_app s1 s2 = String.rev s1 +:+ s2.
Proof.
  revert s2. induction s1 as [|a s1 IH]; intros s2; [done|].
  unfold String.rev. cbn [String.rev_app].
  rewrite (IH (String a "")), IH. by rewrite append_assoc.
Qed.

Lemma rev_cons a s : String.rev (String a s) = String.rev s +:+ String a "".
Proof. unfold String.rev at 1. cbn [String.rev_app]. apply rev_app_append. Qed.

Lemma rev_append s1 s2 :
  String.rev (s1 +:+ s2) = String.rev s2 +:+ String.rev s1.
Proof.
  induction s1 as [|a s1 IH].
  - by rewrite append_empty_r.
  - by rewrite append_cons, !rev_cons, IH, append_assoc.
Qed.

Lemma rev_involutive s : String.rev (String.rev s) = s.
Proof.
  induction s as [|a s IH]; [done|].
  by rewrite rev_cons, rev_append, IH.
Qed.

Lemma lstrip_no_lead s : no_lead (Text.lstrip s).
Proof.
  induction s as [|a s IH]; [done|]. simpl.
  by destruct (Text.isspace a) eqn:Ha.
Qed.

Lemma lstrip_id s : no_lead s → Text.lstrip s = s.
Proof. destruct s as [|a s]; [done|]. simpl. by intros ->. Qed.

Lemma lstrip_snoc s c :
  Text.isspace c = false →
  ∃ u, Text.lstrip (s +:+ String c "") = u +:+ String c "".
Proof.
  intros Hc. induction s as [|a s IH].
  - exists "". simpl. by rewrite Hc.
  - rewrite append_cons. simpl.
    destruct (Text.isspace a); [done|]. exists (String a s).
    by rewrite append_cons.
Qed.

Lemma rstrip_no_lead s : no_lead s → no_lead (Text.rstrip s).
Proof.
  destruct s as [|c s]; [done|]. simpl. intros Hc.
  unfold Text.rstrip. rewrite rev_cons.
  destruct (lstrip_snoc (String.rev s) c Hc) as [u ->].
  by rewrite rev_append.
Qed.

Lemma rstrip_no_trail s : no_trail (Text.rstrip s).
Proof.
  unfold no_trail, Text.rstrip. rewrite rev_involutive. apply lstrip_no_lead.
Qed.

Lemma strip_ends s : no_lead (Text.strip s) ∧ no_trail (Text.strip s).
Proof.
  unfold Text.strip. split.
  - apply rstrip_no_lead, lstrip_no_lead.
  - apply rstrip_no_trail.
Qed.

Lemma ends_trimmed s : no_lead s → no_trail s → trimmed s.
Proof.
  intros Hl Ht. unfold trimmed, Text.strip, Text.rstrip.
  by rewrite (lstrip_id s Hl), (lstrip_id _ Ht), rev_involutive.
Qed.

(** [strip] is idempotent: what it returns it leaves alone. *)
Lemma strip_idempotent s : Text.strip (Text.strip s) = Text.strip s.
Proof. destruct (strip_ends s). by apply ends_trimmed. Qed.

Lemma no_lead_append s1 s2 : s1 ≠ "" → no_lead s1 → no_lead (s1 +:+ s2).
Proof. by destruct s1. Qed.

Lemma rev_nonempty s : s ≠ "" → String.rev s ≠ "".
Proof. intros Hs Hrev. apply Hs. by rewrite <- (rev_involutive s), Hrev. Qed.

Lemma no_trail_append s1 s2 : s2 ≠ "" → no_trail s2 → no_trail (s1 +:+ s2).
Proof.
  unfold no_trail. intros Hs Ht. rewrite rev_append.
  by apply no_lead_append; [apply rev_nonempty|].
Qed.

Lemma truthy_nonempty s : Text.truthy s = true ↔ s ≠ "".
Proof. by destruct s. Qed.

Lemma join_pieces l :
  Forall (λ s, s ≠ "" ∧ no_lead s ∧ no_trail s) l →
  no_lead (Text.join "" l) ∧ no_trail (Text.join "" l)
  ∧ (l ≠ [] → Text.join "" l ≠ "").
Proof.
  induction 1 as [|x l (Hx & Hlead & Htrail) Hall IH]; [done|].
  destruct l as [|y l]; [done|].
  destruct IH as (_ & IHtrail & IHne).
  change (Text.join "" (x :: y :: l)) with (x +:+ Text.join "" (y :: l)).
  split; [by apply no_lead_append|]. split.
  - by apply no_trail_append; [apply IHne|].
  - intros _. by destruct x.
Qed.

(** The text read off a node has no whitespace at either end. *)
Lemma get_text_strip_trimmed n : trimmed (get_text_strip n).
Proof.
  unfold get_text_strip.
  destruct (join_pieces
              (List.filter (λ s, Text.truthy s)
                 (omap (λ d, match d with
                             | NavigableString s => Some (Text.strip s)
                             | Tag _ _ _ => None
                             end) (descendants n)))) as (Hl & Ht & _).
  - induction (descendants n) as [|d ds IH]; [constructor|].
    destruct d as [name attrs contents|s]; simpl; [done|].
    destruct (Text.truthy (Text.strip s)) eqn:Hs; [|done].
    constructor; [|done].
    split; [by apply truthy_nonempty|]. apply strip_ends.
  - by apply ends_trimmed.
Qed.

Lemma parse_product_trimmed product item :
  parse_product product [] = Ok [item] →
  trimmed (product_title item) ∧ trimmed (product_price item).
Proof.
  unfold parse_product.
  destruct (find "div" (class_ "product-inner clearfix") product)
    as [product_inner|]; [|done].
  unfold_chain.
  destruct_lookups; intros [= <-]; simpl;
    split; done || apply get_text_strip_trimmed.
Qed.

(** X9. On text of code points below 256, which is what a [string]
    holds, every record a page yields has a title and a price without
    whitespace at either end: [strip] would leave them alone. *)
Theorem parse_soup_trimmed soup records :
  parse_soup soup = Ok records →
  Forall (λ item, trimmed (product_title item)
                  ∧ trimmed (product_price item)) records.
Proof.
  rewrite parse_soup_flat, for_each_parse_product_records.
  intros (items & -> & Hall). simpl.
  induction Hall as [|product item products items Hitem _ IH]; constructor;
    [|done].
  by eapply parse_product_trimmed.
Qed.

End Trimmed.

(** ** The item filter *)

Section Filter.

Lemma prefix_empty s : String.prefix "" s = true.
Proof. by destruct s. Qed.

(** A needle that starts with a space occurs in what starts with it. *)
Lemma contains_leading c n :
  Text.contains (String c "") (String c n) = true.
Proof.
  simpl. destruct (Ascii.ascii_dec c c); [|done]. by rewrite prefix_empty.
Qed.

Lemma contains_space_cons c n :
  Text.contains " " (String c n) = false →
  c ≠ " "%char ∧ Text.contains " " n = false.
Proof.
  intros Hsp. split.
  - intros ->. by rewrite contains_leading in Hsp.
  - simpl in Hsp. by apply orb_false_iff in Hsp as [_ ?].
Qed.

Lemma prefix_before_space n a b :
  Text.contains " " n = false →
  String.prefix n (a +:+ String " " b) = true → String.prefix n a = true.
Proof.
  revert a. induction n as [|c n IH]; intros a Hsp.
  - intros _. apply prefix_empty.
  - apply contains_space_cons in Hsp as [Hc Hn].
    destruct a as [|c' a].
    + change ("" +:+ String " " b) with (String " " b). simpl.
      by destruct (Ascii.ascii_dec c " ").
    + rewrite append_cons. simpl.
      destruct (Ascii.ascii_dec c c'); [|done]. by apply IH.
Qed.

Lemma contains_cons n c s :
  Text.contains n s = true → Text.contains n (String c s) = true.
Proof. intros Hs. simpl. rewrite Hs. apply orb_true_r. Qed.

Lemma contains_around_space n a b :
  Text.contains " " n = false → n ≠ "" →
  Text.contains n (a +:+ String " " b) = true →
  Text.contains n a = true ∨ Text.contains n b = true.
Proof.
  intros Hsp Hne. induction a as [|c a IH].
  - change ("" +:+ String " " b) with (String " " b). simpl.
    intros [Hp|Hb]%orb_true_iff; [|by right].
    destruct n as [|c n]; [done|].
    apply contains_space_cons in Hsp as [Hc _]. simpl in Hp.
    by destruct (Ascii.ascii_dec c " ").
  - rewrite append_cons.
    change (Text.contains n (String c (a +:+ String " " b)))
      with (String.prefix n (String c (a +:+ String " " b))
            || Text.contains n (a +:+ String " " b)).
    intros [Hp|Hrest]%orb_true_iff.
    + left. rewrite <- append_cons in Hp.
      apply prefix_before_space in Hp; [|done].
      simpl. rewrite orb_true_iff. left. exact Hp.
    + destruct (IH Hrest) as [Ha|Hb]; [left|by right].
      by apply contains_cons.
Qed.

Lemma contains_join n l :
  Text.contains " " n = false → n ≠ "" →
  Text.contains n (Text.join " " l) = true →
  ∃ token, token ∈ l ∧ Text.contains n token = true.
Proof.
  intros Hsp Hne. induction l as [|x l IH].
  - simpl. destruct n; [done|]. by simpl.
  - destruct l as [|y l].
    + simpl. intros Hx. exists x. split; [by left|done].
    + change (Text.join " " (x :: y :: l))
        with (x +:+ String " " (Text.join " " (y :: l))).
      intros [Hx|Hrest]%contains_around_space; [| |done..].
      * exists x. split; [by left|done].
      * destruct (IH Hrest) as (token & Hin & Htoken).
        exists token. split; [by right|done].
Qed.

Lemma is_product_class_contains x :
  is_product_class (Some x) = Text.contains "product" x.
Proof. by destruct x. Qed.

(** X10. The items of a list are the [li] tags one of whose class
    tokens contains ["product"]: the test is per token and by substring,
    and an [li] without a [class] attribute is never an item. *)
Theorem li_filter_by_token name attrs contents :
  search_tag "li" [("class", MatchFn is_product_class)]
    (Tag name attrs contents) = true
  ↔ name = "li"
    ∧ ∃ value, attrs !! "class" = Some value
               ∧ match value with
                 | AttrList l =>
                     ∃ token, token ∈ l
                              ∧ Text.contains "product" token = true
                 | AttrStr s => Text.contains "product" s = true
                 end.
Proof.
  unfold search_tag. cbn [forallb]. rewrite andb_true_r, andb_true_iff.
  rewrite bool_decide_eq_true.
  apply and_iff_compat_l. unfold matches, matches_str.
  destruct (attrs !! "class") as [[s|l]|].
  - rewrite is_product_class_contains. split.
    + intros Hs. by exists (AttrStr s).
    + by intros (? & [= <-] & Hs).
  - rewrite is_product_class_contains, orb_true_iff, existsb_exists.
    split.
    + intros [(token & Hin & Htoken)|Hjoin].
      * exists (AttrList l). split; [done|]. exists token.
        rewrite is_product_class_contains in Htoken.
        split; [by apply list_elem_of_In|done].
      * exists (AttrList l). split; [done|].
        by apply contains_join in Hjoin.
    + intros (? & [= <-] & token & Hin & Htoken). left.
      exists token. rewrite is_product_class_contains.
      split; [by apply list_elem_of_In|done].
  - split; [done|]. by intros (? & [=] & _).
Qed.

End Filter.

(** ** The change cache, beyond the claims *)

Section Cache.

Lemma cache_key_inj p q :
  cache_key p = cache_key q → product_title p = product_title q.
Proof.
  unfold cache_key. intros Heq.
  apply (f_equal String.rev) in Heq. rewrite !rev_append in Heq.
  apply (inj _) in Heq.
  by rewrite <- (rev_involutive (product_title p)), Heq, rev_involutive.
Qed.

(** After a record is looked at, the cache holds its price under its
    key, whether it was counted or not. *)
Lemma update_step_key st p :
  redis (update_step st p) !! cache_key p = Some (product_price p).
Proof.
  unfold update_step, cache_key.
  destruct (redis st !! _) as [cached|] eqn:Hc; simpl.
  - case_bool_decide as Heq; simpl; [by subst|]. by rewrite lookup_insert_eq.
  - by rewrite lookup_insert_eq.
Qed.

Lemma update_step_other st p k :
  k ≠ cache_key p → redis (update_step st p) !! k = redis st !! k.
Proof.
  unfold update_step, cache_key. intros Hk.
  destruct (match _ with Some _ => _ | None => _ end); simpl; [|done].
  by rewrite lookup_insert_ne.
Qed.

Lemma update_step_count st p :
  updated_count st ≤ updated_count (update_step st p) ≤ updated_count st + 1.
Proof.
  unfold update_step.
  destruct (match _ with Some _ => _ | None => _ end); simpl; lia.
Qed.

(** A record that finds its price in the cache changes nothing. *)
Lemma update_step_same st p :
  redis st !! cache_key p = Some (product_price p) →
  update_step st p
  = {| redis := redis st; updated_count := updated_count st;
       commands := commands st ++ [RedisGet (cache_key p)] |}.
Proof.
  unfold update_step, cache_key. intros ->.
  by rewrite bool_decide_eq_true_2.
Qed.

Lemma update_step_counted st p :
  updated_count (update_step st p) = updated_count st →
  redis st !! cache_key p = Some (product_price p)
  ∧ redis (update_step st p) = redis st.
Proof.
  unfold update_step, cache_key.
  destruct (redis st !! _) as [cached|] eqn:Hc; simpl.
  - case_bool_decide as Heq; simpl; [by subst|lia].
  - lia.
Qed.

Lemma gets_app tr1 tr2 : gets (tr1 ++ tr2) = gets tr1 ++ gets tr2.
Proof. apply omap_app. Qed.

Lemma sets_app tr1 tr2 : sets (tr1 ++ tr2) = sets tr1 ++ sets tr2.
Proof. apply omap_app. Qed.

Lemma update_step_commands st p :
  gets (commands (update_step st p)) = gets (commands st) ++ [cache_key p]
  ∧ Z.of_nat (length (sets (commands (update_step st p))))
    - Z.of_nat (length (sets (commands st)))
    = updated_count (update_step st p) - updated_count st.
Proof.
  unfold update_step.
  destruct (match _ with Some _ => _ | None => _ end); cbn [commands updated_count];
    rewrite ?gets_app, ?sets_app, ?length_app; cbn [gets sets omap list_omap length];
    rewrite ?app_nil_r; split; try done; lia.
Qed.

(** X11. The loop sends one [get] per scraped record, in order, and one
    [set] per counted update; the count lies between zero and the
    number of records. *)
Theorem detect_updates_counts scraped_data redis0 :
  let d := detect_updates scraped_data redis0 in
  0 ≤ updated_count d ≤ Z.of_nat (length scraped_data)
  ∧ gets (commands d) = cache_key <$> scraped_data
  ∧ Z.of_nat (length (sets (commands d))) = updated_count d.
Proof.
  induction scraped_data as [|p l IH] using rev_ind; [done|].
  simpl in *. rewrite detect_updates_snoc.
  destruct IH as (Hcount & Hgets & Hsets).
  pose proof (update_step_count (detect_updates l redis0) p).
  destruct (update_step_commands (detect_updates l redis0) p) as [Hg Hs].
  rewrite length_app, fmap_app, Hg, Hgets. simpl.
  repeat split; done || lia.
Qed.

Lemma detect_updates_other scraped_data redis0 k :
  (∀ p, p ∈ scraped_data → cache_key p ≠ k) →
  redis (detect_updates scraped_data redis0) !! k = redis0 !! k.
Proof.
  induction scraped_data as [|p l IH] using rev_ind; intros Hk; [done|].
  rewrite detect_updates_snoc, update_step_other.
  - apply IH. intros q Hq. apply Hk, elem_of_app. by left.
  - intros ->. eapply Hk; [|done]. apply elem_of_app. right. by left.
Qed.

(** X12. The cache only grows: a key that is no scraped record's key
    keeps its value, and no key is ever removed. *)
Theorem cache_frame scraped_data redis0 k :
  let d := detect_updates scraped_data redis0 in
  ((∀ p, p ∈ scraped_data → cache_key p ≠ k) → redis d !! k = redis0 !! k)
  ∧ (is_Some (redis0 !! k) → is_Some (redis d !! k)).
Proof.
  split; [apply detect_updates_other|].
  induction scraped_data as [|p l IH] using rev_ind; [done|].
  intros Hsome. rewrite detect_updates_snoc.
  destruct (decide (k = cache_key p)) as [->|Hne].
  - rewrite update_step_key. eauto.
  - rewrite update_step_other by done. by apply IH.
Qed.

(** X13. After the loop the cache holds, under a record's key, the
    price of the last scraped record with that title. *)
Theorem cache_holds_last_price l1 p l2 redis0 :
  (∀ q, q ∈ l2 → product_title q ≠ product_title p) →
  redis (detect_updates (l1 ++ p :: l2) redis0) !! cache_key p
  = Some (product_price p).
Proof.
  induction l2 as [|q l2 IH] using rev_ind; intros Hlast.
  - rewrite detect_updates_snoc. apply update_step_key.
  - replace (l1 ++ p :: l2 ++ [q]) with ((l1 ++ p :: l2) ++ [q])
      by (by rewrite <- app_assoc).
    rewrite detect_updates_snoc, update_step_other.
    + apply IH. intros q' Hq'. apply Hlast, elem_of_app. by left.
    + intros Hkey%cache_key_inj. eapply Hlast; [|done].
      apply elem_of_app. right. by left.
Qed.

Lemma consistent_app_l l1 l2 : consistent (l1 ++ l2) → consistent l1.
Proof.
  intros Hc p q Hp Hq. apply Hc; apply elem_of_app; by left.
Qed.

Lemma detect_updates_cached l redis0 p :
  consistent l → p ∈ l →
  redis (detect_updates l redis0) !! cache_key p = Some (product_price p).
Proof.
  induction l as [|q l IH] using rev_ind; intros Hc Hp.
  - by apply elem_of_nil in Hp.
  - rewrite detect_updates_snoc.
    destruct (decide (cache_key p = cache_key q)) as [Heq|Hne].
    + rewrite Heq, update_step_key. f_equal. symmetry.
      apply Hc; [done| |by apply cache_key_inj].
      apply elem_of_app. right. by left.
    + rewrite update_step_other by done.
      apply elem_of_app in Hp as [Hp|Hp%list_elem_of_singleton].
      * apply IH; [by eapply consistent_app_l|done].
      * by subst.
Qed.

Lemma detect_updates_settled l redis0 :
  (∀ p, p ∈ l → redis0 !! cache_key p = Some (product_price p)) →
  detect_updates l redis0
  = {| redis := redis0; updated_count := 0;
       commands := (λ p, RedisGet (cache_key p)) <$> l |}.
Proof.
  induction l as [|q l IH] using rev_ind; intros Hall; [done|].
  rewrite detect_updates_snoc, IH.
  - rewrite update_step_same; simpl.
    + by rewrite fmap_app.
    + apply Hall, elem_of_app. right. by left.
  - intros p Hp. apply Hall, elem_of_app. by left.
Qed.

(** Scraping the same records again changes nothing, provided records
    with the same title agree on the price: against the cache the first
    pass left, no record is counted and the cache stays. *)
Lemma rescrape_settles scraped_data redis0 :
  consistent scraped_data →
  let d1 := detect_updates scraped_data redis0 in
  let d2 := detect_updates scraped_data (redis d1) in
  updated_count d2 = 0 ∧ redis d2 = redis d1 ∧ sets (commands d2) = [].
Proof.
  intros Hc d1 d2. subst d2.
  rewrite detect_updates_settled.
  - simpl. repeat split. unfold sets. clear.
    by induction scraped_data as [|p l IH].
  - intros p Hp. by apply detect_updates_cached.
Qed.

Lemma detect_updates_none_counted l redis0 :
  updated_count (detect_updates l redis0) = 0 →
  redis (detect_updates l redis0) = redis0
  ∧ ∀ p, p ∈ l → redis0 !! cache_key p = Some (product_price p).
Proof.
  induction l as [|q l IH] using rev_ind; intros Hzero.
  - split; [done|]. intros p Hp. by apply elem_of_nil in Hp.
  - rewrite detect_updates_snoc in *.
    pose proof (update_step_count (detect_updates l redis0) q) as Hstep.
    pose proof (updated_count_nonneg l redis0) as Hge.
    destruct (update_step_counted (detect_updates l redis0) q) as [Hq Hsame];
      [lia|].
    destruct IH as [IHredis IHall]; [lia|].
    rewrite Hsame. split; [done|].
    intros p [Hp|Hp%list_elem_of_singleton]%elem_of_app; [by apply IHall|].
    subst p. by rewrite <- IHredis.
Qed.

(** X14. Two scraped records with the same title and different prices
    make every run count an update, whatever the cache holds. *)
Theorem conflicting_prices_always_counted scraped_data redis0 p q :
  p ∈ scraped_data → q ∈ scraped_data →
  product_title p = product_title q →
  product_price p ≠ product_price q →
  0 < updated_count (detect_updates scraped_data redis0).
Proof.
  intros Hp Hq Htitle Hprice.
  pose proof (updated_count_nonneg scraped_data redis0) as Hge.
  destruct (decide (updated_count (detect_updates scraped_data redis0) = 0))
    as [Hzero|]; [|lia].
  destruct (detect_updates_none_counted _ _ Hzero) as [_ Hall].
  pose proof (Hall p Hp) as Hcp. pose proof (Hall q Hq) as Hcq.
  unfold cache_key in *. rewrite Htitle in Hcp. congruence.
Qed.

(** X15. On a cache that knows none of the keys, records with distinct
    titles are all counted. *)
Theorem cold_start_counts_all scraped_data redis0 :
  (∀ p, p ∈ scraped_data → redis0 !! cache_key p = None) →
  NoDup (product_title <$> scraped_data) →
  updated_count (detect_updates scraped_data redis0)
  = Z.of_nat (length scraped_data).
Proof.
  induction scraped_data as [|q l IH] using rev_ind; intros Hnone Hnd;
    [done|].
  rewrite fmap_app in Hnd. apply NoDup_app in Hnd as (Hnd & Hfresh & _).
  rewrite detect_updates_snoc, length_app. simpl.
  assert (redis (detect_updates l redis0) !! cache_key q = None) as Hq.
  { rewrite detect_updates_other.
    - apply Hnone, elem_of_app. right. by left.
    - intros p Hp Hkey%cache_key_inj. eapply Hfresh.
      + apply list_elem_of_fmap. by exists p.
      + by left. }
  unfold update_step. unfold cache_key in Hq. rewrite Hq. simpl.
  rewrite IH; [lia| |done].
  intros p Hp. apply Hnone, elem_of_app. by left.
Qed.

End Cache.

(** ** A whole run, beyond the claims *)

Section Runs.
Context {S N : Type} `{!StorageStrategy S, !NotificationStrategy N}.
Variable BeautifulSoup : string → node.
Variable net : network.

Lemma notifications_app tr1 tr2 :
  notifications (tr1 ++ tr2) = notifications tr1 ++ notifications tr2.
Proof. apply omap_app. Qed.

Lemma notifications_scraper tr :
  Forall is_scraper_event tr → notifications tr = [].
Proof. induction 1 as [|e tr He _ IH]; [done|]. by destruct e. Qed.

Lemma notifications_redis tr :
  Forall is_redis_command tr → notifications tr = [].
Proof. induction 1 as [|e tr He _ IH]; [done|]. by destruct e. Qed.

Lemma loads_app tr1 tr2 : loads (tr1 ++ tr2) = (loads tr1 + loads tr2)%nat.
Proof. unfold loads. by rewrite List.filter_app, length_app. Qed.

Lemma loads_scraper tr : Forall is_scraper_event tr → loads tr = 0%nat.
Proof. induction 1 as [|e tr He _ IH]; [done|]. by destruct e. Qed.

Lemma loads_redis tr : Forall is_redis_command tr → loads tr = 0%nat.
Proof. induction 1 as [|e tr He _ IH]; [done|]. by destruct e. Qed.

Lemma sets_scraper tr : Forall is_scraper_event tr → sets tr = [].
Proof. induction 1 as [|e tr He _ IH]; [done|]. by destruct e. Qed.

(** What a run leaves behind when scraping returns. *)
Lemma run_returns (ctl : Controller.t S N) redis0 page_limit proxy
    scraped_data :
  snd (scrape BeautifulSoup (Scraper.init page_limit proxy) net)
  = Ok scraped_data →
  let d := detect_updates scraped_data redis0 in
  let saved := bool_decide (0 < updated_count d) in
  let message := summary scraped_data (updated_count d) in
  scrape_and_store BeautifulSoup net ctl redis0 page_limit proxy
  = {| trace := fst (scrape BeautifulSoup (Scraper.init page_limit proxy) net)
                ++ [StorageLoad] ++ commands d
                ++ (if saved then [StorageSave scraped_data] else [])
                ++ [NotificationSend message];
       redis_client := redis d;
       self := {| storage := if saved
                             then save scraped_data (storage ctl)
                             else storage ctl;
                  notification := send message (notification ctl) |};
       response := Ok message |}.
Proof.
  intros Hok d saved message. subst d saved message. unfold scrape_and_store.
  destruct (scrape _ _ _) as [tr [e'|data]]; simpl in Hok; [done|].
  by injection Hok as ->.
Qed.

(** X16. When scraping raises, the exception is the outcome of the
    run and nothing else has happened: the cache, the storage and the
    notifier are as before, and the trace is that of the scraper alone
    (no cache command, no load, no save, no notification). *)
Theorem scrape_failure_has_no_effect (ctl : Controller.t S N) redis0
    page_limit proxy e :
  snd (scrape BeautifulSoup (Scraper.init page_limit proxy) net) = Raise e →
  let r := scrape_and_store BeautifulSoup net ctl redis0 page_limit proxy in
  response r = Raise e
  ∧ redis_client r = redis0
  ∧ self r = ctl
  ∧ Forall is_scraper_event (trace r).
Proof.
  intros Hraise r. subst r. unfold scrape_and_store.
  pose proof (scrape_events BeautifulSoup (Scraper.init page_limit proxy) net)
    as Hev.
  destruct (scrape _ _ _) as [tr [e'|scraped_data]]; simpl in *; [|done].
  by injection Hraise as ->.
Qed.

(** X17. When scraping returns, the run loads the stored dataset once
    and sends exactly one notification, whether or not anything was
    updated; the notification and the response carry the same message,
    with the number of scraped records and the updated count. *)
Theorem run_notifies_once (ctl : Controller.t S N) redis0 page_limit proxy
    scraped_data :
  snd (scrape BeautifulSoup (Scraper.init page_limit proxy) net)
  = Ok scraped_data →
  let r := scrape_and_store BeautifulSoup net ctl redis0 page_limit proxy in
  let d := detect_updates scraped_data redis0 in
  let message :=
    "Scraped " +:+ pretty (length scraped_data) +:+ " products. Updated "
    +:+ pretty (updated_count d) +:+ " products." in
  response r = Ok message
  ∧ notifications (trace r) = [message]
  ∧ notification (self r) = send message (notification ctl)
  ∧ loads (trace r) = 1%nat
  ∧ redis_client r = redis d.
Proof.
  intros Hok r d message. subst r d message.
  rewrite (run_returns ctl redis0 page_limit proxy _ Hok).
  pose proof (scrape_events BeautifulSoup (Scraper.init page_limit proxy) net)
    as Hev.
  pose proof (commands_redis scraped_data redis0) as Hcmd.
  cbn [response trace self notification redis_client].
  rewrite !notifications_app, !loads_app.
  rewrite (notifications_scraper _ Hev), (notifications_redis _ Hcmd).
  rewrite (loads_scraper _ Hev), (loads_redis _ Hcmd).
  repeat split; by case_bool_decide.
Qed.

(** X18. With a storage that returns what was last saved, the stored
    dataset after a run is the whole scraped list when something was
    updated, and the dataset stored before otherwise. *)
Theorem stored_dataset_after_run (ctl : Controller.t S N) redis0 page_limit
    proxy scraped_data :
  (∀ d s, load (save d s) = d) →
  snd (scrape BeautifulSoup (Scraper.init page_limit proxy) net)
  = Ok scraped_data →
  let r := scrape_and_store BeautifulSoup net ctl redis0 page_limit proxy in
  load (storage (self r))
  = if bool_decide (0 < updated_count (detect_updates scraped_data redis0))
    then scraped_data
    else load (storage ctl).
Proof.
  intros Hlaw Hok r. subst r.
  rewrite (run_returns ctl redis0 page_limit proxy _ Hok).
  cbn [self storage]. case_bool_decide; [apply Hlaw|done].
Qed.

(** X19. A second run over an unchanged site, whose same-titled records
    agree on the price, finds every price in the cache: it reports zero
    updates, saves nothing, sets nothing and leaves cache and storage as
    the first run left them. *)
Theorem second_run_saves_nothing (ctl : Controller.t S N) redis0 page_limit
    proxy scraped_data :
  snd (scrape BeautifulSoup (Scraper.init page_limit proxy) net)
  = Ok scraped_data →
  consistent scraped_data →
  let r1 := scrape_and_store BeautifulSoup net ctl redis0 page_limit proxy in
  let r2 := scrape_and_store BeautifulSoup net (self r1) (redis_client r1)
              page_limit proxy in
  response r2 = Ok (summary scraped_data 0)
  ∧ saves (trace r2) = []
  ∧ sets (trace r2) = []
  ∧ redis_client r2 = redis_client r1
  ∧ storage (self r2) = storage (self r1).
Proof.
  intros Hok Hc r1 r2. subst r2.
  rewrite (run_returns (self r1) (redis_client r1) page_limit proxy _ Hok).
  assert (redis_client r1 = redis (detect_updates scraped_data redis0))
    as Hredis1.
  { subst r1. by rewrite (run_returns ctl redis0 page_limit proxy _ Hok). }
  destruct (rescrape_settles scraped_data redis0 Hc) as (Hzero & Hsame & Hsets).
  cbv zeta in Hzero, Hsame, Hsets. rewrite <- Hredis1 in Hzero, Hsame, Hsets.
  pose proof (scrape_events BeautifulSoup (Scraper.init page_limit proxy) net)
    as Hev.
  pose proof (commands_redis scraped_data (redis_client r1)) as Hcmd.
  cbn [response trace self storage redis_client].
  rewrite Hzero, Hsame, bool_decide_eq_false_2 by lia.
  rewrite !saves_app, !sets_app.
  rewrite (saves_scraper _ Hev), (saves_redis _ Hcmd).
  rewrite (sets_scraper _ Hev), Hsets.
  by repeat split.
Qed.

End Runs.

(** * Further instances on the sample pages *)

(** Three crashes: three requests, two sleeps, [RetryError]. *)
Lemma scrape_page_raises_iff_witness :
  crashes (Cases.always_crashes 1 1%nat) = true
  ∧ crashes (Cases.always_crashes 1 2%nat) = true
  ∧ crashes (Cases.always_crashes 1 3%nat) = true
  ∧ snd (scrape_page (Scraper.init 1 None) Cases.always_crashes 1)
    = Raise RetryError.
Proof.
  split; [reflexivity|]. split; [reflexivity|]. split; [reflexivity|].
  destruct (scrape_page_raises_iff (Scraper.init 1 None) Cases.always_crashes 1)
    as (_ & _ & Hexhausted).
  rewrite (Hexhausted eq_refl eq_refl eq_refl). reflexivity.
Defined.


Lemma scrape_nonpositive_limit_witness :
  page_limit (Scraper.init 0 None) ≤ 0
  ∧ scrape Sample.three_pages (Scraper.init 0 None) Sample.second_page_down
    = ([], Ok []).
Proof.
  split; [simpl; lia|].
  apply scrape_nonpositive_limit. simpl. lia.
Defined.

(** One served markup is rejected by the parser. *)
Lemma parse_page_raises_only_witness :
  parse_page_with Cases.picky_parser "<![foo[bar]]>"
  = Raise (OtherError "ParserRejectedMarkup")
  ∧ (OtherError "ParserRejectedMarkup" = AttributeError
     ∨ Cases.picky_parser "<![foo[bar]]>"
       = Raise (OtherError "ParserRejectedMarkup")).
Proof.
  assert (parse_page_with Cases.picky_parser "<![foo[bar]]>"
          = Raise (OtherError "ParserRejectedMarkup")) as Hraise
    by (vm_compute; reflexivity).
  split; [exact Hraise|].
  exact (parse_page_raises_only _ _ _ Hraise).
Defined.

Lemma scrape_raises_only_witness :
  snd (scrape_with Cases.picky_parser (Scraper.init 2 None)
         Cases.rejected_page_site)
  = Raise (OtherError "ParserRejectedMarkup")
  ∧ (OtherError "ParserRejectedMarkup" = AttributeError
     ∨ OtherError "ParserRejectedMarkup" = RetryError
     ∨ ∃ p html,
         1 ≤ p ≤ page_limit (Scraper.init 2 None)
         ∧ snd (scrape_page (Scraper.init 2 None) Cases.rejected_page_site p)
           = Ok (Some html)
         ∧ Cases.picky_parser html
           = Raise (OtherError "ParserRejectedMarkup")).
Proof.
  assert (snd (scrape_with Cases.picky_parser (Scraper.init 2 None)
                 Cases.rejected_page_site)
          = Raise (OtherError "ParserRejectedMarkup")) as Hraise
    by (vm_compute; reflexivity).
  split; [exact Hraise|].
  exact (scrape_raises_only _ _ _ _ Hraise).
Defined.

Lemma parse_soup_trimmed_witness :
  parse_soup (Sample.shop [Sample.widget_a]) = Ok [Sample.widget_a_record]
  ∧ Forall (λ item, trimmed (product_title item)
                    ∧ trimmed (product_price item))
      [Sample.widget_a_record].
Proof.
  assert (parse_soup (Sample.shop [Sample.widget_a])
          = Ok [Sample.widget_a_record]) as Hok by (vm_compute; reflexivity).
  split; [exact Hok|].
  exact (parse_soup_trimmed _ _ Hok).
Defined.

(** A key of another application survives the loop. *)
Lemma cache_frame_witness :
  (∀ p, p ∈ [Sample.widget_a_record] → cache_key p ≠ "session")
  ∧ redis (detect_updates [Sample.widget_a_record] {[ "session" := "1" ]})
    !! "session"
    = ({[ "session" := "1" ]} : gmap string string) !! "session".
Proof.
  assert (∀ p, p ∈ [Sample.widget_a_record] → cache_key p ≠ "session")
    as Hother.
  { intros p Hp%list_elem_of_singleton. by subst p. }
  split; [exact Hother|].
  destruct (cache_frame [Sample.widget_a_record] {[ "session" := "1" ]}
              "session") as [Hframe _].
  exact (Hframe Hother).
Defined.

Lemma cache_holds_last_price_witness :
  (∀ q, q ∈ [Cases.widget_b_record] →
        product_title q ≠ product_title Sample.widget_a_record)
  ∧ redis (detect_updates
             ([Cases.widget_a_cheaper]
              ++ Sample.widget_a_record :: [Cases.widget_b_record]) ∅)
    !! cache_key Sample.widget_a_record
    = Some "$9.99".
Proof.
  assert (∀ q, q ∈ [Cases.widget_b_record] →
               product_title q ≠ product_title Sample.widget_a_record)
    as Hlast.
  { intros q Hq%list_elem_of_singleton. by subst q. }
  split; [exact Hlast|].
  exact (cache_holds_last_price [Cases.widget_a_cheaper]
           Sample.widget_a_record [Cases.widget_b_record] ∅ Hlast).
Defined.

Lemma conflicting_prices_always_counted_witness :
  Cases.widget_a_cheaper ∈ [Cases.widget_a_cheaper; Sample.widget_a_record]
  ∧ Sample.widget_a_record ∈ [Cases.widget_a_cheaper; Sample.widget_a_record]
  ∧ product_title Cases.widget_a_cheaper
    = product_title Sample.widget_a_record
  ∧ product_price Cases.widget_a_cheaper
    ≠ product_price Sample.widget_a_record
  ∧ 0 < updated_count
          (detect_updates [Cases.widget_a_cheaper; Sample.widget_a_record]
             {[ "Widget A_price" := "$9.99" ]}).
Proof.
  assert (Cases.widget_a_cheaper
          ∈ [Cases.widget_a_cheaper; Sample.widget_a_record]) as Hp
    by (by left).
  assert (Sample.widget_a_record
          ∈ [Cases.widget_a_cheaper; Sample.widget_a_record]) as Hq
    by (right; by left).
  assert (product_price Cases.widget_a_cheaper
          ≠ product_price Sample.widget_a_record) as Hprice by done.
  split; [exact Hp|]. split; [exact Hq|]. split; [reflexivity|].
  split; [exact Hprice|].
  exact (conflicting_prices_always_counted _ _ _ _ Hp Hq eq_refl Hprice).
Defined.

Lemma cold_start_counts_all_witness :
  (∀ p, p ∈ [Sample.widget_a_record; Cases.widget_b_record] →
        (∅ : gmap string string) !! cache_key p = None)
  ∧ NoDup (product_title
           <$> [Sample.widget_a_record; Cases.widget_b_record])
  ∧ updated_count
      (detect_updates [Sample.widget_a_record; Cases.widget_b_record] ∅)
    = 2.
Proof.
  assert (NoDup (product_title
                 <$> [Sample.widget_a_record; Cases.widget_b_record]))
    as Hnd.
  { apply NoDup_cons. split.
    - intros Hin%list_elem_of_singleton. discriminate Hin.
    - apply NoDup_singleton. }
  split; [intros p _; apply lookup_empty|]. split; [exact Hnd|].
  exact (cold_start_counts_all
           [Sample.widget_a_record; Cases.widget_b_record] ∅
           (λ p _, lookup_empty _) Hnd).
Defined.

Lemma scrape_failure_has_no_effect_witness :
  snd (scrape Cases.broken_page (Scraper.init 1 None) Cases.one_page_site)
  = Raise AttributeError
  ∧ response (scrape_and_store Cases.broken_page Cases.one_page_site
                Cases.json_controller ∅ 1 None)
    = Raise AttributeError
  ∧ self (scrape_and_store Cases.broken_page Cases.one_page_site
            Cases.json_controller ∅ 1 None)
    = Cases.json_controller.
Proof.
  assert (snd (scrape Cases.broken_page (Scraper.init 1 None)
                 Cases.one_page_site)
          = Raise AttributeError) as Hraise by (vm_compute; reflexivity).
  split; [exact Hraise|].
  destruct (scrape_failure_has_no_effect Cases.broken_page Cases.one_page_site
              Cases.json_controller ∅ 1 None _ Hraise)
    as (Hresponse & _ & Hself & _).
  split; [exact Hresponse|exact Hself].
Defined.

Lemma run_notifies_once_witness :
  snd (scrape Sample.three_pages (Scraper.init 3 None)
         Sample.second_page_down)
  = Ok [Sample.widget_a_record; Sample.widget_a_record]
  ∧ notifications
      (trace (scrape_and_store Sample.three_pages Sample.second_page_down
                Cases.json_controller ∅ 3 None))
    = ["Scraped 2 products. Updated 1 products."].
Proof.
  assert (snd (scrape Sample.three_pages (Scraper.init 3 None)
                 Sample.second_page_down)
          = Ok [Sample.widget_a_record; Sample.widget_a_record]) as Hok
    by (vm_compute; reflexivity).
  split; [exact Hok|].
  destruct (run_notifies_once Sample.three_pages Sample.second_page_down
              Cases.json_controller ∅ 3 None _ Hok)
    as (_ & Hnotified & _).
  rewrite Hnotified. vm_compute. reflexivity.
Defined.

Lemma stored_dataset_after_run_witness :
  (∀ d (s : JSONStorage), load (save d s) = d)
  ∧ snd (scrape Sample.three_pages (Scraper.init 3 None)
           Sample.second_page_down)
    = Ok [Sample.widget_a_record; Sample.widget_a_record]
  ∧ load (storage
            (self (scrape_and_store Sample.three_pages
                     Sample.second_page_down Cases.json_controller
                     ∅ 3 None)))
    = [Sample.widget_a_record; Sample.widget_a_record].
Proof.
  assert (snd (scrape Sample.three_pages (Scraper.init 3 None)
                 Sample.second_page_down)
          = Ok [Sample.widget_a_record; Sample.widget_a_record]) as Hok
    by (vm_compute; reflexivity).
  assert (∀ d (s : JSONStorage), load (save d s) = d) as Hlaw
    by reflexivity.
  split; [exact Hlaw|]. split; [exact Hok|].
  rewrite (stored_dataset_after_run Sample.three_pages Sample.second_page_down
             Cases.json_controller ∅ 3 None _ Hlaw Hok).
  vm_compute. reflexivity.
Defined.

Lemma second_run_saves_nothing_witness :
  snd (scrape Sample.three_pages (Scraper.init 3 None)
         Sample.second_page_down)
  = Ok [Sample.widget_a_record; Sample.widget_a_record]
  ∧ consistent [Sample.widget_a_record; Sample.widget_a_record]
  ∧ response
      (scrape_and_store Sample.three_pages Sample.second_page_down
         (self (scrape_and_store Sample.three_pages Sample.second_page_down
                  Cases.json_controller ∅ 3 None))
         (redis_client
            (scrape_and_store Sample.three_pages Sample.second_page_down
               Cases.json_controller ∅ 3 None))
         3 None)
    = Ok "Scraped 2 products. Updated 0 products.".
Proof.
  assert (snd (scrape Sample.three_pages (Scraper.init 3 None)
                 Sample.second_page_down)
          = Ok [Sample.widget_a_record; Sample.widget_a_record]) as Hok
    by (vm_compute; reflexivity).
  assert (consistent [Sample.widget_a_record; Sample.widget_a_record])
    as Hconsistent.
  { intros p q Hp Hq _.
    assert (∀ x, x ∈ [Sample.widget_a_record; Sample.widget_a_record] →
                 x = Sample.widget_a_record) as Hsame.
    { intros x Hx. apply elem_of_cons in Hx as [Hx|Hx]; [exact Hx|].
      by apply list_elem_of_singleton in Hx. }
    by rewrite (Hsame p Hp), (Hsame q Hq). }
  split; [exact Hok|]. split; [exact Hconsistent|].
  destruct (second_run_saves_nothing Sample.three_pages
              Sample.second_page_down Cases.json_controller ∅ 3 None _
              Hok Hconsistent) as (Hresponse & _).
  rewrite Hresponse. vm_compute. reflexivity.
Defined.

(** C5, as stated, fails.  Pages 1 and 3 are served and each yields a
    record; every request for page 2 raises outside the requests
    hierarchy.  The fetch of page 2 raises [RetryError], [scrape] raises
    it too, the record of page 1 is lost and page 3 is never requested. *)
Lemma crashing_fetch_aborts_scrape :
  page_markup Cases.second_page_crashes 1 = Some "<page 1>"
  ∧ parse_page Sample.three_pages "<page 1>" = Ok [Sample.widget_a_record]
  ∧ page_markup Cases.second_page_crashes 3 = Some "<page 3>"
  ∧ parse_page Sample.three_pages "<page 3>" = Ok [Sample.widget_a_record]
  ∧ snd (scrape_page (Scraper.init 3 None) Cases.second_page_crashes 2)
    = Raise RetryError
  ∧ snd (scrape Sample.three_pages (Scraper.init 3 None)
           Cases.second_page_crashes)
    = Raise RetryError
  ∧ snd (scrape Sample.three_pages (Scraper.init 3 None)
           Cases.second_page_crashes)
    ≠ Ok [Sample.widget_a_record; Sample.widget_a_record]
  ∧ requests (fst (scrape Sample.three_pages (Scraper.init 3 None)
                     Cases.second_page_crashes))
    = ["https://dentalstall.com/shop/page/1/";
       "https://dentalstall.com/shop/page/2/";
       "https://dentalstall.com/shop/page/2/";
       "https://dentalstall.com/shop/page/2/"].
Proof.
  assert (snd (scrape Sample.three_pages (Scraper.init 3 None)
                 Cases.second_page_crashes)
          = Raise RetryError) as Hraise by (vm_compute; reflexivity).
  split; [vm_compute; reflexivity|]. split; [vm_compute; reflexivity|].
  split; [vm_compute; reflexivity|]. split; [vm_compute; reflexivity|].
  split; [vm_compute; reflexivity|]. split; [exact Hraise|].
  split; [rewrite Hraise; discriminate|].
  vm_compute. reflexivity.
Qed.

(** Page 2 answers 503 and page 3 its markup, each at the second
    attempt: the records of pages 1 and 3 are returned. *)
Lemma scrape_skips_failed_pages_witness :
  parse_page Sample.three_pages "" = Ok []
  ∧ (∀ p, 1 ≤ p ≤ 3 → is_Some (settling_attempt Cases.settles_on_retry p))
  ∧ snd (scrape Sample.three_pages (Scraper.init 3 None)
           Cases.settles_on_retry)
    = Ok [Sample.widget_a_record; Sample.widget_a_record].
Proof.
  assert (∀ p, 1 ≤ p ≤ 3 →
               is_Some (settling_attempt Cases.settles_on_retry p)) as Hnet.
  { intros p Hp.
    assert (p = 1 ∨ p = 2 ∨ p = 3) as [->|[->| ->]] by lia;
      vm_compute; eauto. }
  split; [vm_compute; reflexivity|]. split; [exact Hnet|].
  rewrite (scrape_skips_failed_pages Sample.three_pages (Scraper.init 3 None)
             Cases.settles_on_retry eq_refl Hnet).
  vm_compute. reflexivity.
Defined.
